(** * hoverAMR web interface: map ingestion, coordinate transform, ROS bridge client

    A shallow embedding of
    - [src/components/Map/MapCanvas.tsx] (the [mapParser] service bundled in
      it): [parsePgmFile], [createDummyMap], [parseYamlMetadata],
      [MapParser.worldToPixel], [MapParser.pixelToWorld];
    - [src/services/websocket.ts]: the class [ROSWebSocketService];
    - further parts of the same bundle: the parser inside [tryUrlFallback],
      [MapParser.loadMapFromFiles] and the list operations of
      [PointDataService];
    - [src/components/Map/MapSelector.tsx]: the map [loadMap] builds.

    JavaScript strings are lists of UTF-16 code units ([Z]); the bytes of a
    [Uint8Array] are [Z] values in [0, 256).  Integer-valued header numbers are
    mathematical integers ([Z]); the model agrees with the binary64 numbers of
    the engine as long as they stay below [2^53].  Metres, resolutions and
    origins are binary64 floats ([PrimFloat]). *)

From Stdlib Require Import ZArith Lia Floats.
From stdpp Require Import base list strings gmap.

Local Open Scope Z_scope.

(* ===================================================================== *)
(** ** The JavaScript string primitives the parsers call *)
(* ===================================================================== *)

Module JS.

(** The code units of a Rocq string literal. *)
Definition lit (s : string) : list Z :=
  (fun a => Z.of_nat (Ascii.nat_of_ascii a)) <$> String.list_ascii_of_string s.

(** WhiteSpace and LineTerminator code units: what [String.prototype.trim]
    strips, what [\s] matches and what [parseInt] skips. *)
Definition is_ws (c : Z) : bool :=
  (c =? 9) || (c =? 10) || (c =? 11) || (c =? 12) || (c =? 13) || (c =? 32)
  || (c =? 160) || (c =? 5760) || ((8192 <=? c) && (c <=? 8202))
  || (c =? 8232) || (c =? 8233) || (c =? 8239) || (c =? 8287)
  || (c =? 12288) || (c =? 65279).

(** LineTerminator: what [.] in a regular expression refuses to match. *)
Definition is_line_term (c : Z) : bool :=
  (c =? 10) || (c =? 13) || (c =? 8232) || (c =? 8233).

Fixpoint trimStart (s : list Z) : list Z :=
  match s with
  | c :: t => if is_ws c then trimStart t else s
  | [] => []
  end.

Definition trimEnd (s : list Z) : list Z := rev (trimStart (rev s)).

Definition trim (s : list Z) : list Z := trimEnd (trimStart s).

(** [s.split(/\r?\n/)] *)
Fixpoint split_lines (s : list Z) : list (list Z) :=
  match s with
  | [] => [[]]
  | c :: t =>
      if c =? 10 then [] :: split_lines t
      else if (c =? 13) && bool_decide (head t = Some 10) then split_lines t
      else match split_lines t with
           | l :: ls => (c :: l) :: ls
           | [] => [[c]]
           end
  end.

(** [s.split(/\s+/)]: a maximal run of white space is one separator. *)
Fixpoint split_ws (s : list Z) : list (list Z) :=
  match s with
  | [] => [[]]
  | c :: t =>
      if is_ws c then
        match t with
        | c' :: _ => if is_ws c' then split_ws t else [] :: split_ws t
        | [] => [] :: split_ws t
        end
      else match split_ws t with
           | l :: ls => (c :: l) :: ls
           | [] => [[c]]
           end
  end.

(** [s.split(sep)] for a one-character separator. *)
Fixpoint split_on (sep : Z) (s : list Z) : list (list Z) :=
  match s with
  | [] => [[]]
  | c :: t =>
      if c =? sep then [] :: split_on sep t
      else match split_on sep t with
           | l :: ls => (c :: l) :: ls
           | [] => [[c]]
           end
  end.

Definition eqb_str (a b : list Z) : bool := bool_decide (a = b).

Fixpoint startsWith (s p : list Z) : bool :=
  match p, s with
  | [], _ => true
  | c :: p', d :: s' => (c =? d) && startsWith s' p'
  | _ :: _, [] => false
  end.

(** [s.includes(p)] *)
Fixpoint includes (s p : list Z) : bool :=
  startsWith s p ||
  match s with
  | [] => false
  | _ :: t => includes t p
  end.

(** [s.indexOf(c)] for a single code unit; [None] stands for [-1]. *)
Fixpoint indexOf (c : Z) (s : list Z) : option nat :=
  match s with
  | [] => None
  | d :: t => if d =? c then Some O else S <$> indexOf c t
  end.

(** The value of a digit of radix at most 16, if any. *)
Definition digit_val (c : Z) : option Z :=
  if (48 <=? c) && (c <=? 57) then Some (c - 48)
  else if (97 <=? c) && (c <=? 102) then Some (c - 87)
  else if (65 <=? c) && (c <=? 70) then Some (c - 55)
  else None.

(** The longest prefix of radix-[r] digits, as digit values. *)
Fixpoint digit_prefix (r : Z) (s : list Z) : list Z :=
  match s with
  | [] => []
  | c :: t =>
      match digit_val c with
      | Some d => if d <? r then d :: digit_prefix r t else []
      | None => []
      end
  end.

Definition digits_value (r : Z) (ds : list Z) : Z :=
  fold_left (fun acc d => acc * r + d) ds 0.

(** [parseInt(s)] without a radix argument; [None] stands for [NaN].
    Leading white space is skipped, a sign is read, a [0x] or [0X] prefix
    selects radix 16, and what follows the digits is ignored.  The result
    is the mathematical integer the digits denote; the engine returns the
    Number nearest to it, which is that integer as long as its magnitude
    is at most [2^53]. *)
Definition parseInt (s : list Z) : option Z :=
  let s1 := trimStart s in
  let '(sign, s2) :=
    match s1 with
    | 45 :: t => (-1, t)
    | 43 :: t => (1, t)
    | _ => (1, s1)
    end in
  let '(r, s3) :=
    match s2 with
    | 48 :: 120 :: t => (16, t)
    | 48 :: 88 :: t => (16, t)
    | _ => (10, s2)
    end in
  match digit_prefix r s3 with
  | [] => None
  | ds => Some (sign * digits_value r ds)
  end.

(** The decimal digits of a non-negative integer, most significant first.
    [fuel] bounds the number of digits. *)
Fixpoint dec_digits (fuel : nat) (n : Z) (acc : list Z) : list Z :=
  match fuel with
  | O => acc
  | S f =>
      let acc' := (48 + n mod 10) :: acc in
      if n <? 10 then acc' else dec_digits f (n / 10) acc'
  end.

(** [n.toString()] for an integer-valued number below [10^21] in
    magnitude: from there on the engine prints an exponent. *)
Definition toString (n : Z) : list Z :=
  let d := dec_digits (S (Z.to_nat (Z.log2 (Z.abs n)))) (Z.abs n) [] in
  if n <? 0 then 45 :: d else d.

(** Decimal digits, and the number a string of them denotes. *)
Definition is_dec_digit (c : Z) : Prop := 48 <= c <= 57.

Definition dec_value (s : list Z) : Z :=
  digits_value 10 ((fun c => c - 48) <$> s).

End JS.

(* ===================================================================== *)
(** ** The raster decoder: [parsePgmFile] *)
(* ===================================================================== *)

Module Pgm.
Import JS.

(** [MapData] of [src/types/robot.ts] (the optional [metadata] field is
    never written by the parsers and is left out). *)
Record MapData := mkMapData {
  width : Z;
  height : Z;
  resolution : float;
  origin : float * float * float;
  data : list Z
}.

(** The binary64 number written [0.05] in the source. *)
Definition res_default : float := 0x1.999999999999ap-5%float.

(** Why the decoder fell back to the placeholder: the argument of
    [createDummyMap], which only reaches the console. *)
Inductive reason :=
| EmptyFile
| FileTooSmall
| InvalidPgmHeader
| UnsupportedFormat (format : list Z)
| InvalidDimensions
| InvalidHeaderValues
| ParsingError.

Definition createDummyMap (why : reason) : MapData :=
  {| width := 100;
     height := 100;
     resolution := res_default;
     origin := (0, 0, 0)%float;
     data := replicate (Z.to_nat 10000) (-1) |}.

(** "non-printable chars except newlines" *)
Definition is_binary (c : Z) : bool :=
  (c <? 32) && negb (c =? 10) && negb (c =? 13) && negb (c =? 9).

(** The first loop of the reader: accumulate [headerStr] until the first
    binary byte, which is appended too and whose index is [headerEnd];
    [headerEnd] stays [0] when no binary byte is met.  The caller passes
    the first [Math.min(view.length, 1000)] bytes. *)
Fixpoint scanHeader (view : list Z) (i : nat) : list Z * nat :=
  match view with
  | [] => ([], O)
  | c :: rest =>
      if is_binary c then ([c], i)
      else let '(s, e) := scanHeader rest (S i) in (c :: s, e)
  end.

(** The trimmed header lines that are neither empty nor comments. *)
Definition validLines (headerStr : list Z) : list (list Z) :=
  List.filter (fun l => negb (eqb_str l []) && negb (startsWith l (lit "#")))
              (trim <$> split_lines headerStr).

(** [while (searchPos < view.length - 1)]: the index of the first [P5]. *)
Fixpoint findP5 (view : list Z) (searchPos : nat) : nat :=
  match view with
  | c1 :: ((c2 :: _) as rest) =>
      if (c1 =? 80) && (c2 =? 53) then searchPos else findP5 rest (S searchPos)
  | _ => searchPos
  end.

(** [view.slice(from, to)] *)
Definition slice (view : list Z) (from to : nat) : list Z :=
  drop from (take to view).

(** [while (searchPos < view.length)]: the index after the first newline
    whose ten preceding bytes contain the text of [maxval]; [0] when there
    is none.  [steps] is [view.length - searchPos]. *)
Fixpoint findHeaderEnd (view maxvalStr : list Z) (steps searchPos : nat) : nat :=
  match steps with
  | O => O
  | S steps' =>
      if bool_decide (view !! searchPos = Some 10)
         && includes (slice view (searchPos - 10) searchPos) maxvalStr
      then S searchPos
      else findHeaderEnd view maxvalStr steps' (S searchPos)
  end.

(** An integer that a Number holds exactly.  On such header numbers the
    integers of the model are the numbers of the engine: [parseInt] does
    not round, [toString] prints plain digits, and [width * height] is an
    array length in the engine exactly when the integer product is one. *)
Definition exact_number (z : Z) : Prop := Z.abs z <= 2 ^ 53.

(** What the header stage hands to the pixel stage. *)
Record header := mkHeader {
  h_width : Z;
  h_height : Z;
  h_maxval : Z;
  actualHeaderEnd : nat
}.

(** Lines 741-840: the header of the file, or the reason for the
    placeholder.  The three header numbers are those of the engine when
    they are [exact_number]s. *)
Definition parseHeader (view : list Z) : reason + header :=
  let '(headerStr, headerEnd) := scanHeader (take 1000 view) O in
  match validLines headerStr with
  | format :: dims :: maxvalLine :: _ =>
      if negb (eqb_str format (lit "P5")) then inl (UnsupportedFormat format)
      else
        match List.filter (fun part => negb (eqb_str part [])) (split_ws dims) with
        | [w; h] =>
            match parseInt w, parseInt h, parseInt maxvalLine with
            | Some width, Some height, Some maxval =>
                let p5 := findP5 view O in
                let found :=
                  findHeaderEnd view (toString maxval) (length view - p5) p5 in
                inr {| h_width := width;
                       h_height := height;
                       h_maxval := maxval;
                       actualHeaderEnd :=
                         if bool_decide (found = O) then headerEnd else found |}
            | _, _, _ => inl InvalidHeaderValues
            end
        | _ => inl InvalidDimensions
        end
  | _ => inl InvalidPgmHeader
  end.

(** What the [try] block can throw. *)
Inductive exn := RangeError.

(** [new Array(n).fill(v)]: the constructor throws unless [n] is an array
    length. *)
Definition newArrayFill (n v : Z) : exn + list Z :=
  if (n <? 0) || (4294967295 <? n) then inl RangeError
  else inr (replicate (Z.to_nat n) v).

(** [for (i = 0; i < bound; i++) mapPixelData[i] = pixelData[i]] *)
Definition copyPixels (pixelData mapPixelData : list Z) (bound : nat) : list Z :=
  fold_left
    (fun arr i =>
       match pixelData !! i with
       | Some pixel => <[i := pixel]> arr
       | None => arr
       end)
    (seq 0 bound) mapPixelData.

(** Lines 844-873: the cells of the grid. *)
Definition readPixels (view : list Z) (h : header) : exn + MapData :=
  let pixelData := drop (actualHeaderEnd h) view in
  let expectedSize := h_width h * h_height h in
  match newArrayFill expectedSize 255 with
  | inl e => inl e
  | inr blank =>
      let bound := Nat.min (length pixelData) (Z.to_nat expectedSize) in
      inr {| width := h_width h;
             height := h_height h;
             resolution := res_default;
             origin := (0, 0, 0)%float;
             data := copyPixels pixelData blank bound |}
  end.

(** [parsePgmFile] on a file whose bytes can be read: the grid the promise
    resolves with.  The [catch] of the reader turns an exception of the
    [try] block into the placeholder. *)
Definition parsePgmFile (bytes : list Z) : MapData :=
  if bool_decide (length bytes = O) then createDummyMap EmptyFile
  else if (length bytes <? 20)%nat then createDummyMap FileTooSmall
  else
    match parseHeader bytes with
    | inl why => createDummyMap why
    | inr h =>
        match readPixels bytes h with
        | inl _ => createDummyMap ParsingError
        | inr mapData => mapData
        end
    end.

(** Modelled from the spec: the encoder of the raster format, which the
    repository does not contain ("ASCII header — format marker token,
    [WIDTH HEIGHT] line, [MAXVAL] line — followed immediately by
    [WIDTH*HEIGHT] raw bytes of pixel data, one byte per cell"), for cells
    in 0-255 and hence [MAXVAL] 255. *)
Definition encode_header (w h : Z) : list Z :=
  lit "P5" ++ [10] ++ toString w ++ [32] ++ toString h ++ [10] ++ lit "255" ++ [10].

Definition encode (w h : Z) (cells : list Z) : list Z :=
  encode_header w h ++ cells.

(** *** Vocabulary of the statements about the decoder *)

(** The fixed 100x100 grid of unknown cells. *)
Definition is_placeholder (m : MapData) : Prop :=
  width m = 100 /\ height m = 100 /\ data m = replicate (Z.to_nat 10000) (-1).

(** The header lines and the dimension tokens the header stage looks at. *)
Definition header_lines (bytes : list Z) : list (list Z) :=
  validLines (fst (scanHeader (take 1000 bytes) O)).

Definition dimension_tokens (dims : list Z) : list (list Z) :=
  List.filter (fun part => negb (eqb_str part [])) (split_ws dims).

(** The irrecoverable problems: no bytes, fewer than 20 bytes, a first
    header line other than [P5], a width or height token or a maxval line
    that [parseInt] reads as [NaN]. *)
Definition irrecoverable (bytes : list Z) : Prop :=
  bytes = []
  \/ (length bytes < 20)%nat
  \/ (exists l, header_lines bytes !! O = Some l /\ l <> lit "P5")
  \/ (exists dims tok, header_lines bytes !! 1%nat = Some dims /\
                       In tok (dimension_tokens dims) /\ parseInt tok = None)
  \/ (exists l, header_lines bytes !! 2%nat = Some l /\ parseInt l = None).

(** The grid a raster decodes to: its cells under the default metadata. *)
Definition grid (w h : Z) (cells : list Z) : MapData :=
  {| width := w; height := h; resolution := res_default;
     origin := (0, 0, 0)%float; data := cells |}.

(** A well-formed raster: positive dimensions, one cell in 0-255 per
    pixel. *)
Definition well_formed (w h : Z) (cells : list Z) : Prop :=
  0 < w /\ 0 < h /\ Z.of_nat (length cells) = w * h /\
  Forall (fun c => 0 <= c <= 255) cells.

End Pgm.

(* ===================================================================== *)
(** ** The metadata decoder: [parseYamlMetadata] *)
(* ===================================================================== *)

Module Yaml.
Import JS.

(** [Partial<MapData>] as the decoder fills it: each field set or not. *)
Record metadata := mkMetadata {
  md_resolution : option float;
  md_origin : option (float * float * float)
}.

(** The group of the first match of [/\[(.*?)\]/] that starts right after
    an opening bracket: the text up to the next closing bracket, unless a
    line terminator comes first. *)
Fixpoint upto_close (s : list Z) : option (list Z) :=
  match s with
  | [] => None
  | c :: t =>
      if c =? 93 then Some []
      else if is_line_term c then None
      else (fun g => c :: g) <$> upto_close t
  end.

(** [value.match(/\[(.*?)\]/)], reduced to its group 1. *)
Fixpoint match_brackets (s : list Z) : option (list Z) :=
  match s with
  | [] => None
  | c :: t =>
      if c =? 91 then
        match upto_close t with
        | Some g => Some g
        | None => match_brackets t
        end
      else match_brackets t
  end.

(** [coords[2] || 0] *)
Definition or_zero (c : option float) : float :=
  match c with
  | Some x => if PrimFloat.is_zero x || PrimFloat.is_nan x then 0%float else x
  | None => 0%float
  end.

(** The key and the value of a [key: value] line; [None] for a blank line,
    a comment and a line without a colon. *)
Definition key_value (line : list Z) : option (list Z * list Z) :=
  let trimmed := trim line in
  if eqb_str trimmed [] || startsWith trimmed (lit "#") then None
  else
    match indexOf 58 trimmed with
    | Some colonIndex =>
        Some (trim (take colonIndex trimmed), trim (drop (S colonIndex) trimmed))
    | None => None
    end.

Section Decoder.

(** The engine's [parseFloat], whose result is [NaN] when the text has no
    numeric prefix. *)
Variable parseFloat : list Z -> float.

(** The [coords] array of an [origin] value. *)
Definition parseOrigin (value : list Z) : list float :=
  if includes value (lit "[") && includes value (lit "]") then
    match match_brackets value with
    | Some inner => (fun s => parseFloat (trim s)) <$> split_on 44 inner
    | None => []
    end
  else if includes value (lit ",") then
    (fun s => parseFloat (trim s)) <$> split_on 44 value
  else [].

(** The body of the loop over the lines. *)
Definition applyLine (md : metadata) (line : list Z) : metadata :=
  match key_value line with
  | None => md
  | Some (key, value) =>
      if eqb_str key (lit "resolution") then
        let res := parseFloat value in
        if PrimFloat.is_nan res then md
        else {| md_resolution := Some res; md_origin := md_origin md |}
      else if eqb_str key (lit "origin") then
        let coords := parseOrigin value in
        if (2 <=? length coords)%nat
           && forallb (fun c => negb (PrimFloat.is_nan c)) coords
        then {| md_resolution := md_resolution md;
                md_origin := Some (nth 0 coords nan, nth 1 coords nan,
                                   or_zero (coords !! 2%nat)) |}
        else md
      else md
  end.

(** [parseYamlMetadata] on the decoded text of the file; [None] when the
    promise is rejected ("Empty YAML content after decode"). *)
Definition parseYamlMetadata (content : list Z) : option metadata :=
  if eqb_str (trim content) [] then None
  else Some (fold_left applyLine (split_lines content)
                       {| md_resolution := None; md_origin := None |}).

(** The components of a comma-separated list, each trimmed and parsed. *)
Definition coords_of (s : list Z) : list float :=
  (fun t => parseFloat (trim t)) <$> split_on 44 s.

End Decoder.

End Yaml.

(* ===================================================================== *)
(** ** The coordinate transform: [MapParser.worldToPixel], [pixelToWorld] *)
(* ===================================================================== *)

Module Transform.
Import Pgm.

(** The binary64 number nearest to an integer. *)
Definition Z2float (z : Z) : float :=
  SF2Prim (SpecFloat.binary_normalize prec emax z 0 false).

(** The integer part, rounded down, of the finite number [±m * 2^e]. *)
Definition floorZ (s : bool) (m : positive) (e : Z) : Z :=
  Z.shiftr (if s then Z.neg m else Z.pos m) (- e).

(** [Math.floor]: zeros, infinities, [NaN] and integers are returned as
    they are. *)
Definition floor (x : float) : float :=
  match Prim2SF x with
  | S754_finite s m e => if 0 <=? e then x else Z2float (floorZ s m e)
  | _ => x
  end.

Definition worldToPixel (worldX worldY : float) (mapData : MapData)
  : float * float :=
  let '(ox, oy, _) := origin mapData in
  let i := floor ((worldX - ox) / resolution mapData) in
  let j := floor (Z2float (height mapData)
                  - (worldY - oy) / resolution mapData) in
  (i, j)%float.

Definition pixelToWorld (pixelX pixelY : float) (mapData : MapData)
  : float * float :=
  let '(ox, oy, _) := origin mapData in
  let worldX := (ox + pixelX * resolution mapData)%float in
  let worldY := (oy + (Z2float (height mapData) - pixelY) * resolution mapData)%float in
  (worldX, worldY).

End Transform.

(* ===================================================================== *)
(** ** The ROS bridge client: [ROSWebSocketService] *)
(* ===================================================================== *)

Module Ros.

(** [WebSocket.readyState] *)
Inductive readyState := CONNECTING | OPEN | CLOSING | CLOSED.

#[global] Instance readyState_eq_dec : EqDecision readyState.
Proof. solve_decision. Defined.

(** What [JSON.parse] returns; the fields of an object are its own
    properties, each name once. *)
#[local] Unset Elimination Schemes.
Inductive json :=
| JNull
| JBool (b : bool)
| JNum (x : float)
| JStr (s : string)
| JArr (items : list json)
| JObj (fields : list (string * json)).
#[local] Set Elimination Schemes.

(** A JavaScript value read from a frame; [None] is [undefined]. *)
Abbreviation value := (option json).

(** [data.name] on a parsed frame: only an object has own properties
    named by the sender. *)
Definition field (name : string) (data : json) : value :=
  match data with
  | JObj fields => snd <$> List.find (fun kv => String.eqb (fst kv) name) fields
  | _ => None
  end.

(** ToBoolean *)
Definition truthy (v : value) : bool :=
  match v with
  | None | Some JNull => false
  | Some (JBool b) => b
  | Some (JNum x) => negb (PrimFloat.is_zero x || PrimFloat.is_nan x)
  | Some (JStr s) => negb (String.eqb s "")
  | Some (JArr _) | Some (JObj _) => true
  end.

(** A topic callback: its identity, and whether running it throws. *)
Record handler := mkHandler { h_id : nat; h_throws : bool }.

(** The envelope [subscribe], [publish] and [advertise] send. *)
Record frame := mkFrame {
  f_op : string;
  f_topic : string;
  f_type : string;
  f_msg : value
}.

(** What the client does to its surroundings, in order. *)
Inductive obs :=
| Called (h : nat) (msg : value)      (* a topic handler ran on [data.msg] *)
| ConnectionCb (cb : nat)             (* a connection callback ran *)
| DisconnectionCb (cb : nat)          (* a disconnection callback ran *)
| Sent (socket : nat) (f : frame)     (* [ws.send] *)
| Rejected                            (* the promise of [connect] rejected *)
| ConsoleError.                       (* [console.error] *)

(** The fields of the service, the [WebSocket] objects it has created and
    the timers it has set.  [ws] is an index into [sockets]; every socket
    carries the four handlers [connect] installs, which act on the
    service whichever socket they belong to.  Callbacks are opaque: they
    are recorded in [trace] and do not call back into the service. *)
Record service := mkService {
  url_ok : bool;                      (* [new WebSocket(url)] does not throw *)
  ws : option nat;
  sockets : list readyState;
  reconnectAttempts : nat;
  maxReconnectAttempts : nat;
  subscribers : gmap string handler;
  connectionCallbacks : list nat;
  disconnectionCallbacks : list nat;
  timers : nat;                       (* pending [setTimeout] callbacks *)
  trace : list obs
}.

Definition new_service (url_ok : bool) : service :=
  {| url_ok := url_ok; ws := None; sockets := []; reconnectAttempts := 0;
     maxReconnectAttempts := 5; subscribers := ∅;
     connectionCallbacks := []; disconnectionCallbacks := [];
     timers := 0; trace := [] |}.

Definition set_ws (w : option nat) (st : service) : service :=
  mkService (url_ok st) w (sockets st) (reconnectAttempts st)
    (maxReconnectAttempts st) (subscribers st) (connectionCallbacks st)
    (disconnectionCallbacks st) (timers st) (trace st).

Definition set_sockets (l : list readyState) (st : service) : service :=
  mkService (url_ok st) (ws st) l (reconnectAttempts st)
    (maxReconnectAttempts st) (subscribers st) (connectionCallbacks st)
    (disconnectionCallbacks st) (timers st) (trace st).

Definition set_reconnectAttempts (n : nat) (st : service) : service :=
  mkService (url_ok st) (ws st) (sockets st) n
    (maxReconnectAttempts st) (subscribers st) (connectionCallbacks st)
    (disconnectionCallbacks st) (timers st) (trace st).

Definition set_subscribers (m : gmap string handler) (st : service) : service :=
  mkService (url_ok st) (ws st) (sockets st) (reconnectAttempts st)
    (maxReconnectAttempts st) m (connectionCallbacks st)
    (disconnectionCallbacks st) (timers st) (trace st).

Definition set_connectionCallbacks (l : list nat) (st : service) : service :=
  mkService (url_ok st) (ws st) (sockets st) (reconnectAttempts st)
    (maxReconnectAttempts st) (subscribers st) l
    (disconnectionCallbacks st) (timers st) (trace st).

Definition set_disconnectionCallbacks (l : list nat) (st : service) : service :=
  mkService (url_ok st) (ws st) (sockets st) (reconnectAttempts st)
    (maxReconnectAttempts st) (subscribers st) (connectionCallbacks st)
    l (timers st) (trace st).

Definition set_timers (n : nat) (st : service) : service :=
  mkService (url_ok st) (ws st) (sockets st) (reconnectAttempts st)
    (maxReconnectAttempts st) (subscribers st) (connectionCallbacks st)
    (disconnectionCallbacks st) n (trace st).

Definition log (os : list obs) (st : service) : service :=
  mkService (url_ok st) (ws st) (sockets st) (reconnectAttempts st)
    (maxReconnectAttempts st) (subscribers st) (connectionCallbacks st)
    (disconnectionCallbacks st) (timers st) (trace st ++ os).

(** [isConnected()], also the guard of [subscribe], [publish] and
    [advertise]: [this.ws] is set and its [readyState] is [OPEN]. *)
Definition isConnected (st : service) : bool :=
  match ws st with
  | Some id => bool_decide (sockets st !! id = Some OPEN)
  | None => false
  end.

(** [connect()]: a new socket, which [this.ws] now refers to. *)
Definition connect (st : service) : service :=
  if url_ok st then
    set_sockets (sockets st ++ [CONNECTING]) (set_ws (Some (length (sockets st))) st)
  else log [Rejected] st.

Definition handleReconnect (st : service) : service :=
  if (reconnectAttempts st <? maxReconnectAttempts st)%nat then
    set_timers (S (timers st))
      (set_reconnectAttempts (S (reconnectAttempts st)) st)
  else st.

(** [ws.onopen] and [ws.onclose], with listeners that return normally: a
    listener that throws would end the [forEach], and with it the handler,
    at that listener. *)
Definition onopen (st : service) : service :=
  log (ConnectionCb <$> connectionCallbacks st) (set_reconnectAttempts 0 st).

Definition onclose (st : service) : service :=
  handleReconnect (log (DisconnectionCb <$> disconnectionCallbacks st) st).

Definition onerror (st : service) : service :=
  log [ConsoleError; Rejected] st.

(** [this.subscribers.has(key)] and [.get(key)]: the keys of the registry
    are strings, so a key of another type is never found. *)
Definition registered (st : service) (key : value) : option handler :=
  match key with
  | Some (JStr topic) => subscribers st !! topic
  | _ => None
  end.

(** [ws.onmessage]; [None] is a frame on which [JSON.parse] throws.  The
    [catch] logs whatever the [try] block throws: the parse error, the
    [TypeError] of [data.topic] on [null], an exception of the handler. *)
Definition onmessage (st : service) (parsed : value) : service :=
  match parsed with
  | None => log [ConsoleError] st
  | Some JNull => log [ConsoleError] st
  | Some data =>
      if truthy (field "topic" data) then
        match registered st (field "topic" data) with
        | Some h =>
            log (Called (h_id h) (field "msg" data)
                 :: if h_throws h then [ConsoleError] else []) st
        | None => st
        end
      else st
  end.

Definition subscribe (topic messageType : string) (callback : handler)
    (st : service) : service :=
  match ws st with
  | Some id =>
      if bool_decide (sockets st !! id = Some OPEN) then
        log [Sent id (mkFrame "subscribe" topic messageType None)]
            (set_subscribers (<[topic := callback]> (subscribers st)) st)
      else log [ConsoleError] st
  | None => log [ConsoleError] st
  end.

Definition publish (topic messageType : string) (message : value)
    (st : service) : service :=
  match ws st with
  | Some id =>
      if bool_decide (sockets st !! id = Some OPEN) then
        log [Sent id (mkFrame "publish" topic messageType message)] st
      else log [ConsoleError] st
  | None => log [ConsoleError] st
  end.

Definition advertise (topic messageType : string) (st : service) : service :=
  match ws st with
  | Some id =>
      if bool_decide (sockets st !! id = Some OPEN) then
        log [Sent id (mkFrame "advertise" topic messageType None)] st
      else log [ConsoleError] st
  | None => log [ConsoleError] st
  end.

Definition onConnection (callback : nat) (st : service) : service :=
  set_connectionCallbacks (connectionCallbacks st ++ [callback]) st.

Definition onDisconnection (callback : nat) (st : service) : service :=
  set_disconnectionCallbacks (disconnectionCallbacks st ++ [callback]) st.

(** [WebSocket.close()]: a socket that is connecting or open starts
    closing. *)
Definition close_socket (s : readyState) : readyState :=
  match s with
  | CONNECTING | OPEN => CLOSING
  | CLOSING | CLOSED => s
  end.

Definition disconnect (st : service) : service :=
  match ws st with
  | Some id =>
      set_ws None
        (set_sockets (alter close_socket id (sockets st)) st)
  | None => st
  end.

(** What the caller does. *)
Inductive call :=
| Connect
| Disconnect
| Subscribe (topic messageType : string) (callback : handler)
| Publish (topic messageType : string) (message : value)
| Advertise (topic messageType : string)
| OnConnection (callback : nat)
| OnDisconnection (callback : nat).

(** What the browser does: the events of a socket and the expiry of a
    timer. *)
Inductive event :=
| SockOpen (id : nat)
| SockMessage (id : nat) (parsed : value)
| SockError (id : nat)
| SockClose (id : nat)
| TimerFire.

Definition do_call (c : call) (st : service) : service :=
  match c with
  | Connect => connect st
  | Disconnect => disconnect st
  | Subscribe topic messageType callback => subscribe topic messageType callback st
  | Publish topic messageType message => publish topic messageType message st
  | Advertise topic messageType => advertise topic messageType st
  | OnConnection callback => onConnection callback st
  | OnDisconnection callback => onDisconnection callback st
  end.

(** An event takes effect only in a state where the browser can raise it:
    a connecting socket opens, an open socket delivers, a socket that is
    not yet closed fails or closes, a pending timer expires and runs
    [this.connect()]. *)
Definition fire (e : event) (st : service) : service :=
  match e with
  | SockOpen id =>
      if bool_decide (sockets st !! id = Some CONNECTING)
      then onopen (set_sockets (<[id := OPEN]> (sockets st)) st)
      else st
  | SockMessage id parsed =>
      if bool_decide (sockets st !! id = Some OPEN)
      then onmessage st parsed
      else st
  | SockError id =>
      match sockets st !! id with
      | Some CONNECTING | Some OPEN | Some CLOSING => onerror st
      | _ => st
      end
  | SockClose id =>
      match sockets st !! id with
      | Some CONNECTING | Some OPEN | Some CLOSING =>
          onclose (set_sockets (<[id := CLOSED]> (sockets st)) st)
      | _ => st
      end
  | TimerFire =>
      match timers st with
      | S n => connect (set_timers n st)
      | O => st
      end
  end.

Inductive action := Call (c : call) | Event (e : event).

Definition step (st : service) (a : action) : service :=
  match a with
  | Call c => do_call c st
  | Event e => fire e st
  end.

Definition run (acts : list action) (st : service) : service :=
  fold_left step acts st.

(** A reconnect attempt that fails: the timer expires, [connect()]
    creates a socket, and that socket reports an error and closes. *)
Definition failed_attempt (st : service) : service :=
  let id := length (sockets st) in
  fire (SockClose id) (fire (SockError id) (fire TimerFire st)).

(** *** Vocabulary of the statements about the client *)

(** The handler invocations of a piece of trace, in order. *)
Definition calls (tr : list obs) : list (nat * value) :=
  omap (fun o => match o with Called h msg => Some (h, msg) | _ => None end) tr.

(** The connection callbacks a piece of trace ran. *)
Definition connection_calls (tr : list obs) : list nat :=
  omap (fun o => match o with ConnectionCb cb => Some cb | _ => None end) tr.

(** The action registers a handler for [topic]. *)
Definition subscribes_to (topic : string) (a : action) : bool :=
  match a with
  | Call (Subscribe t _ _) => String.eqb t topic
  | _ => false
  end.

Definition all_closed (st : service) : Prop :=
  Forall (fun s => s = CLOSED) (sockets st).

End Ros.

(* ===================================================================== *)
(** ** Sample inputs *)
(* ===================================================================== *)

Module Samples.
Import JS Pgm Ros.

(** A file whose first header line is [XX]. *)
Definition wrong_marker_file : list Z :=
  lit "XX" ++ [10] ++ lit "3 3" ++ [10] ++ lit "255" ++ [10] ++ replicate 10 65.

(** A file that declares a width of zero. *)
Definition zero_width_file : list Z :=
  lit "P5" ++ [10] ++ lit "0 5" ++ [10] ++ lit "255" ++ [10] ++ replicate 10 65.

(** A 4x5 file whose payload lacks its last five bytes. *)
Definition short_payload_file : list Z :=
  lit "P5" ++ [10] ++ lit "4 5" ++ [10] ++ lit "255" ++ [10] ++ replicate 15 7.

(** A file that declares more cells than an array can hold. *)
Definition oversize_file : list Z :=
  lit "P5" ++ [10] ++ lit "70000 70000" ++ [10] ++ lit "255" ++ [10]
  ++ replicate 10 65.

(** The map of the worked example: 10x10, 0.05 m per pixel, origin
    (-1, -1, 0). *)
Definition example_map : MapData :=
  {| width := 10; height := 10; resolution := res_default;
     origin := (-1, -1, 0)%float; data := replicate 100 0 |}.

(** A stand-in for the engine's [parseFloat] in the examples: it agrees
    with it on decimal integers. *)
Definition sample_parseFloat (s : list Z) : float :=
  match parseInt s with
  | Some z => Transform.Z2float z
  | None => nan
  end.

(** A client with one connection callback, connected over socket 0. *)
Definition connected_service : service :=
  run [Call (OnConnection 7); Call Connect; Event (SockOpen 0)] (new_service true).

End Samples.

(* ===================================================================== *)
(** ** Raster files with comment lines *)
(* ===================================================================== *)

Module Commented.
Import JS Pgm.

(** Lines, each closed by a line feed. *)
Definition unlines (ls : list (list Z)) : list Z :=
  concat ((fun l => l ++ [10]) <$> ls).

(** Modelled from the spec: a raster file with comment lines between the
    format marker and the dimensions ("format marker token, optional
    [#]-comment lines, [WIDTH HEIGHT] line, [MAXVAL] line"), the layout the
    reader looks for ("P5\n#comment\nWIDTH HEIGHT\nMAXVAL\n"). *)
Definition encode_commented (comments : list (list Z)) (w h : Z)
    (cells : list Z) : list Z :=
  unlines ([lit "P5"] ++ comments ++ [toString w ++ [32] ++ toString h])
  ++ lit "255" ++ [10] ++ cells.

(** A comment line: a [#], then characters from the space on that do not
    spell [255]. *)
Definition comment_line (c : list Z) : Prop :=
  head c = Some 35 /\ Forall (fun x => 32 <= x) c
  /\ includes c (lit "255") = false.

(** A line on which the search for the end of the header does not stop. *)
Definition quiet (ms l : list Z) : Prop :=
  Forall (fun c => c <> 10) l /\ includes l ms = false.

End Commented.

(* ===================================================================== *)
(** ** The parser of the fetch fallback: [tryUrlFallback] *)
(* ===================================================================== *)

Module Fallback.
Import JS Pgm.

(** [s.lastIndexOf(p)]; [-1] when [p] does not occur. *)
Fixpoint lastIndexOf (s p : list Z) : Z :=
  match s with
  | [] => if startsWith [] p then 0 else -1
  | _ :: t =>
      let later := lastIndexOf t p in
      if 0 <=? later then later + 1
      else if startsWith s p then 0 else -1
  end.

(** [i] is the last position of [s] at which [p] occurs; [None]: [p] does
    not occur in [s]. *)
Definition last_occurrence (s p : list Z) (i : option nat) : Prop :=
  match i with
  | Some i =>
      (i <= length s)%nat /\ startsWith (drop i s) p = true
      /\ forall j, (i < j <= length s)%nat -> startsWith (drop j s) p = false
  | None => forall j, (j <= length s)%nat -> startsWith (drop j s) p = false
  end.

(** The header loop of the fallback, on the first
    [Math.min(view.length, 200)] bytes: the text up to and with the first
    control byte other than a line feed or a carriage return. *)
Fixpoint scanHeaderText (view : list Z) : list Z :=
  match view with
  | [] => []
  | c :: rest =>
      if (c <? 32) && negb (c =? 10) && negb (c =? 13) then [c]
      else c :: scanHeaderText rest
  end.

(** [pixel >= 250 ? 0 : pixel <= 50 ? 100 : -1] *)
Definition occupancy (pixel : Z) : Z :=
  if 250 <=? pixel then 0 else if pixel <=? 50 then 100 else -1.

(** [for (i = 0; i < bound; i++) occupancyData[i] = occupancy(pixelData[i])] *)
Definition copyOccupancy (pixelData occupancyData : list Z) (bound : nat)
  : list Z :=
  fold_left
    (fun arr i =>
       match pixelData !! i with
       | Some pixel => <[i := occupancy pixel]> arr
       | None => arr
       end)
    (seq 0 bound) occupancyData.

(** [headerStr] and [lines] of the fallback: the lines are kept as they
    are, without trimming. *)
Definition fallbackText (bytes : list Z) : list Z :=
  scanHeaderText (take 200 bytes).

Definition fallbackLines (bytes : list Z) : list (list Z) :=
  List.filter (fun line => negb (eqb_str (trim line) [])
                           && negb (startsWith line (lit "#")))
              (split_lines (fallbackText bytes)).

(** Lines 1076-1123: the parser inside [tryUrlFallback], on the bytes
    [fetch] returned.  [None] stands for an exception, which sends the
    reader on to [tryDataUrlFallback].  As in [parseHeader], the header
    numbers are those of the engine when they are [exact_number]s. *)
Definition fallbackParse (bytes : list Z) : option MapData :=
  let headerStr := fallbackText bytes in
  let lines := fallbackLines bytes in
  match lines with
  | format :: dims :: maxvalLine :: _ =>
      if negb (eqb_str format (lit "P5")) then None
      else
        let parts := parseInt <$> split_ws dims in
        match parts !! 0%nat, parts !! 1%nat, parseInt maxvalLine with
        | Some (Some width), Some (Some height), Some maxval =>
            let headerEnd :=
              lastIndexOf headerStr (toString maxval)
              + Z.of_nat (length (toString maxval)) + 1 in
            let pixelData := drop (Z.to_nat headerEnd) bytes in
            let expectedSize := width * height in
            match newArrayFill expectedSize (-1) with
            | inl _ => None
            | inr blank =>
                let bound := Nat.min (length pixelData) (Z.to_nat expectedSize) in
                Some {| width := width;
                        height := height;
                        resolution := res_default;
                        origin := (0, 0, 0)%float;
                        data := copyOccupancy pixelData blank bound |}
            end
        | _, _, _ => None
        end
  | _ => None
  end.

End Fallback.

(* ===================================================================== *)
(** ** A map with its metadata: [MapParser.loadMapFromFiles], [loadMap] *)
(* ===================================================================== *)

Module Loader.
Import JS Pgm Yaml.

(** [ToBoolean] of a number: neither a zero nor [NaN]. *)
Definition truthy_number (x : float) : bool :=
  negb (PrimFloat.is_zero x || PrimFloat.is_nan x).

Definition set_resolution (r : float) (m : MapData) : MapData :=
  {| width := width m; height := height m; resolution := r;
     origin := origin m; data := data m |}.

Definition set_origin (o : float * float * float) (m : MapData) : MapData :=
  {| width := width m; height := height m; resolution := resolution m;
     origin := o; data := data m |}.

(** The [metadata] field of [MapData], which only [MapSelector] fills. *)
Record map_metadata := mkMapMetadata {
  mm_image : string;
  mm_resolution : float;
  mm_origin : float * float * float;
  mm_negate : float;
  mm_occupied_thresh : float;
  mm_free_thresh : float
}.

Section Load.

Variable parseFloat : list Z -> float.

(** [MapParser.loadMapFromFiles]; [yamlFile] is the text of the optional
    metadata file.  A rejected metadata promise is caught and only
    logged. *)
Definition loadMapFromFiles (pgmFile : list Z) (yamlFile : option (list Z))
  : MapData :=
  let mapData := parsePgmFile pgmFile in
  match yamlFile with
  | Some content =>
      match parseYamlMetadata parseFloat content with
      | Some yamlMetadata =>
          let mapData :=
            match md_resolution yamlMetadata with
            | Some r => if truthy_number r then set_resolution r mapData
                        else mapData
            | None => mapData
            end in
          match md_origin yamlMetadata with
          | Some o => set_origin o mapData
          | None => mapData
          end
      | None => mapData
      end
  | None => mapData
  end.

(** [x || y] on an optional number. *)
Definition number_or (x : option float) (y : float) : float :=
  match x with
  | Some r => if truthy_number r then r else y
  | None => y
  end.

(** The [finalMapData] of [loadMap] in [MapSelector.tsx], once both
    files are fetched: the map and its [metadata] field; [None] when the
    metadata promise is rejected and the [catch] reports the error.  The
    metadata decoder never fills [yamlMetadata.metadata], so the three
    thresholds are the defaults 0, 0.65 and 0.196. *)
Definition loadMap (mapName : string) (pgmFile yamlText : list Z)
  : option (MapData * map_metadata) :=
  let mapData := parsePgmFile pgmFile in
  match parseYamlMetadata parseFloat yamlText with
  | Some yamlMetadata =>
      let res := number_or (md_resolution yamlMetadata) (resolution mapData) in
      let org := default (origin mapData) (md_origin yamlMetadata) in
      Some (set_origin org (set_resolution res mapData),
            {| mm_image := mapName +:+ ".pgm";
               mm_resolution :=
                 number_or (Some res) 0x1.999999999999ap-5%float;
               mm_origin := org;
               mm_negate := 0%float;
               mm_occupied_thresh := 0x1.4cccccccccccdp-1%float;
               mm_free_thresh := 0x1.916872b020c4ap-3%float |})
  | None => None
  end.

(** A metadata line that sets the resolution. *)
Definition sets_resolution (line : list Z) : Prop :=
  exists value, key_value line = Some (lit "resolution", value)
                /\ PrimFloat.is_nan (parseFloat value) = false.

End Load.
End Loader.

(* ===================================================================== *)
(** ** From a pixel to the world and back *)
(* ===================================================================== *)

Module RoundTrip.
Import Pgm Transform.

(** The pixel column [worldToPixel] gives for the world point that
    [pixelToWorld] gives for the pixel [(px, py)]. *)
Definition column_back (mapData : MapData) (px : Z) (py : float) : float :=
  let '(worldX, worldY) := pixelToWorld (Z2float px) py mapData in
  fst (worldToPixel worldX worldY mapData).

(** [x === z] for an integer [z]. *)
Definition is_number (x : float) (z : Z) : bool := PrimFloat.eqb x (Z2float z).

(** The columns [0 .. n-1]. *)
Definition columns (n : nat) : list Z := Z.of_nat <$> seq 0 n.

End RoundTrip.

(* ===================================================================== *)
(** ** What a run of the ROS bridge client shows *)
(* ===================================================================== *)

Module RosTrace.
Import Ros.

(** The frames a trace shows, each with the socket it went over. *)
Definition sent (tr : list obs) : list (nat * frame) :=
  omap (fun o => match o with Sent id f => Some (id, f) | _ => None end) tr.

(** The client with another trace. *)
Definition with_trace (tr : list obs) (st : service) : service :=
  mkService (url_ok st) (ws st) (sockets st) (reconnectAttempts st)
    (maxReconnectAttempts st) (subscribers st) (connectionCallbacks st)
    (disconnectionCallbacks st) (timers st) tr.

(** The listener a call registers, if it registers one. *)
Definition connection_listener (a : action) : option nat :=
  match a with Call (OnConnection callback) => Some callback | _ => None end.

Definition disconnection_listener (a : action) : option nat :=
  match a with Call (OnDisconnection callback) => Some callback | _ => None end.

(** The calls behind the guard [if (!this.isConnected())]. *)
Definition needs_connection (c : call) : bool :=
  match c with
  | Subscribe _ _ _ | Publish _ _ _ | Advertise _ _ => true
  | _ => false
  end.

End RosTrace.

(* ===================================================================== *)
(** ** The goal point store: [PointDataService] *)
(* ===================================================================== *)

Module Points.

(** [GoalPoint] of [src/types/robot.ts]. *)
Record GoalPoint := mkGoalPoint {
  gp_id : string;
  gp_name : string;
  gp_x : float;
  gp_y : float;
  gp_timestamp : float
}.

(** [Partial<GoalPoint>]: the properties an update carries. *)
Record GoalUpdate := mkGoalUpdate {
  u_id : option string;
  u_name : option string;
  u_x : option float;
  u_y : option float;
  u_timestamp : option float
}.

(** [{ ...point, ...updates }] *)
Definition merge (point : GoalPoint) (updates : GoalUpdate) : GoalPoint :=
  {| gp_id := default (gp_id point) (u_id updates);
     gp_name := default (gp_name point) (u_name updates);
     gp_x := default (gp_x point) (u_x updates);
     gp_y := default (gp_y point) (u_y updates);
     gp_timestamp := default (gp_timestamp point) (u_timestamp updates) |}.

Record MapPointData := mkMapPointData {
  mapName : string;
  mapPath : option string;
  points : list GoalPoint;
  createdAt : string;
  updatedAt : string
}.

Record PointDataFile := mkPointDataFile {
  version : string;
  maps : list MapPointData
}.

(** [array.findIndex(p)]; [None] stands for [-1]. *)
Fixpoint findIndex {A} (p : A -> bool) (l : list A) : option nat :=
  match l with
  | [] => None
  | x :: t => if p x then Some O else S <$> findIndex p t
  end.

(** [m => m.mapName === mapName] and [p => p.id === pointId] *)
Definition named (name : string) (m : MapPointData) : bool :=
  String.eqb (mapName m) name.

Definition has_id (pointId : string) (p : GoalPoint) : bool :=
  String.eqb (gp_id p) pointId.

Definition set_maps (ms : list MapPointData) (data : PointDataFile) : PointDataFile :=
  {| version := version data; maps := ms |}.

(** Every operation starts from the file [loadMapPointData] returned,
    [data].  A writing operation gives the file it hands to
    [saveMapPointData], or [None] when it returns [false] without saving;
    [now] is the reading of the clock.  The entry [find] returns is the
    entry of [data.maps] itself, so writing to it changes the file at the
    index of the first match. *)

Definition getPointsForMap (data : PointDataFile) (name : string) : list GoalPoint :=
  match List.find (named name) (maps data) with
  | Some mapData => points mapData
  | None => []
  end.

Definition addPointToMap (now : string) (name : string) (point : GoalPoint)
    (path : option string) (data : PointDataFile) : PointDataFile :=
  match findIndex (named name) (maps data) with
  | Some existingMapIndex =>
      set_maps
        (alter (fun m => {| mapName := mapName m; mapPath := mapPath m;
                            points := points m ++ [point];
                            createdAt := createdAt m; updatedAt := now |})
               existingMapIndex (maps data))
        data
  | None =>
      set_maps
        (maps data ++ [{| mapName := name; mapPath := path; points := [point];
                          createdAt := now; updatedAt := now |}])
        data
  end.

Definition updatePointInMap (now : string) (name pointId : string)
    (updates : GoalUpdate) (data : PointDataFile) : option PointDataFile :=
  match findIndex (named name) (maps data) with
  | Some mapIndex =>
      match maps data !! mapIndex with
      | Some mapData =>
          match findIndex (has_id pointId) (points mapData) with
          | Some pointIndex =>
              Some (set_maps
                (alter (fun m =>
                          {| mapName := mapName m; mapPath := mapPath m;
                             points := alter (fun p => merge p updates)
                                             pointIndex (points m);
                             createdAt := createdAt m; updatedAt := now |})
                       mapIndex (maps data))
                data)
          | None => None
          end
      | None => None
      end
  | None => None
  end.

Definition removePointFromMap (now : string) (name pointId : string)
    (data : PointDataFile) : option PointDataFile :=
  match findIndex (named name) (maps data) with
  | Some mapIndex =>
      Some (set_maps
        (alter (fun m =>
                  {| mapName := mapName m; mapPath := mapPath m;
                     points := List.filter (fun p => negb (has_id pointId p))
                                           (points m);
                     createdAt := createdAt m; updatedAt := now |})
               mapIndex (maps data))
        data)
  | None => None
  end.

(** [getAllMapsInfo]: name, point count and last update of every map. *)
Definition getAllMapsInfo (data : PointDataFile) : list (string * nat * string) :=
  (fun m => (mapName m, length (points m), updatedAt m)) <$> maps data.

(** The number of points the file holds, over all maps. *)
Definition totalPoints (data : PointDataFile) : nat :=
  sum_list ((fun info => snd (fst info)) <$> getAllMapsInfo data).

End Points.

(* ===================================================================== *)
(** ** More sample inputs *)
(* ===================================================================== *)

Module MoreSamples.
Import JS Pgm Points.

(** A 2x3 file with one byte on each side of the two thresholds and a
    missing last byte. *)
Definition fallback_sample : list Z :=
  lit "P5" ++ [10] ++ lit "2 3" ++ [10] ++ lit "255" ++ [10]
  ++ [0; 50; 51; 249; 250].

(** The comment line a map saver writes. *)
Definition creator_comment : list Z := lit "# CREATOR: map_saver 0.050 m/pix".

(** A point file with two maps; both hold a point of id [a]. *)
Definition lab_file : PointDataFile :=
  {| version := "1.0.0";
     maps := [ {| mapName := "lab"; mapPath := None;
                  points := [mkGoalPoint "a" "dock" 1 2 0;
                             mkGoalPoint "b" "door" 3 4 0];
                  createdAt := "t0"; updatedAt := "t0" |};
               {| mapName := "hall"; mapPath := None;
                  points := [mkGoalPoint "a" "desk" 5 6 0];
                  createdAt := "t0"; updatedAt := "t0" |} ] |}.

End MoreSamples.

(* ===================================================================== *)
(** * Properties *)
(* ===================================================================== *)

(** Decide every integer comparison of the goal that the context settles. *)
Ltac zbool :=
  repeat match goal with
  | |- context [?a =? ?b] =>
      first [ rewrite (proj2 (Z.eqb_neq a b)) by lia
            | rewrite (proj2 (Z.eqb_eq a b)) by lia ]
  | |- context [?a <=? ?b] =>
      first [ rewrite (proj2 (Z.leb_le a b)) by lia
            | rewrite (proj2 (Z.leb_gt a b)) by lia ]
  | |- context [?a <? ?b] =>
      first [ rewrite (proj2 (Z.ltb_lt a b)) by lia
            | rewrite (proj2 (Z.ltb_ge a b)) by lia ]
  end.

(** Lengths of concatenations. *)
Ltac list_len :=
  repeat first [rewrite length_app | progress cbn [length]]; try lia.

(* ===================================================================== *)
(** ** String primitives *)
(* ===================================================================== *)

Module JSFacts.
Import JS.

Lemma dec_digit_not_ws c : is_dec_digit c -> is_ws c = false.
Proof. unfold is_dec_digit, is_ws. intros H. zbool. reflexivity. Qed.

Lemma dec_digit_val c : is_dec_digit c -> digit_val c = Some (c - 48).
Proof. unfold is_dec_digit, digit_val. intros H. zbool. reflexivity. Qed.

Lemma trimStart_head s :
  (forall c, head s = Some c -> is_ws c = false) -> trimStart s = s.
Proof.
  destruct s as [|c t]; [reflexivity|]. intros H. simpl.
  rewrite (H c); reflexivity.
Qed.

Lemma trimEnd_last x b : is_ws b = false -> trimEnd (x ++ [b]) = x ++ [b].
Proof.
  intros Hb. unfold trimEnd. rewrite rev_app_distr. cbn [rev app trimStart].
  rewrite Hb. cbn [rev]. rewrite rev_involutive. reflexivity.
Qed.

Lemma trim_ends a mid b :
  is_ws a = false -> is_ws b = false ->
  trim (a :: mid ++ [b]) = a :: mid ++ [b].
Proof.
  intros Ha Hb. unfold trim.
  rewrite (trimStart_head (a :: _)) by (simpl; intros c [= <-]; exact Ha).
  apply (trimEnd_last (a :: mid)), Hb.
Qed.

Lemma trim_single a : is_ws a = false -> trim [a] = [a].
Proof. intros H. unfold trim, trimEnd. simpl. rewrite H. simpl. rewrite H. reflexivity. Qed.

Lemma split_lines_line l r :
  Forall (fun c => c <> 10 /\ c <> 13) l ->
  split_lines (l ++ 10 :: r) = l :: split_lines r.
Proof.
  induction 1 as [|c l [H10 H13] _ IH]; simpl.
  - reflexivity.
  - zbool. simpl. rewrite IH. reflexivity.
Qed.

Lemma split_ws_word w :
  Forall (fun c => is_ws c = false) w -> split_ws w = [w].
Proof.
  induction 1 as [|c w Hc _ IH]; simpl; [reflexivity|].
  rewrite Hc, IH. reflexivity.
Qed.

Lemma split_ws_two w c h :
  Forall (fun c => is_ws c = false) w ->
  Forall (fun c => is_ws c = false) (c :: h) ->
  split_ws (w ++ 32 :: c :: h) = [w; c :: h].
Proof.
  intros Hw Hh. induction Hw as [|d w Hd _ IH].
  - cbn [app split_ws]. change (is_ws 32) with true. cbv iota.
    rewrite (Forall_inv Hh), (split_ws_word _ (Forall_inv_tail Hh)).
    reflexivity.
  - cbn [app split_ws]. rewrite Hd, IH. reflexivity.
Qed.

(** *** Decimal text *)

Lemma dec_value_snoc s c : dec_value (s ++ [c]) = dec_value s * 10 + (c - 48).
Proof.
  unfold dec_value, digits_value. rewrite fmap_app, fold_left_app. reflexivity.
Qed.

Lemma dec_digits_acc fuel : forall n acc,
  dec_digits fuel n acc = dec_digits fuel n [] ++ acc.
Proof.
  induction fuel as [|f IH]; intros n acc; simpl; [reflexivity|].
  destruct (n <? 10); [reflexivity|].
  rewrite (IH _ (_ :: acc)), (IH _ [_]), <- app_assoc. reflexivity.
Qed.

Lemma dec_digits_digits fuel : forall n,
  Forall is_dec_digit (dec_digits fuel n []).
Proof.
  induction fuel as [|f IH]; intros n; simpl; [constructor|].
  assert (Hd : is_dec_digit (48 + n mod 10))
    by (unfold is_dec_digit; pose proof (Z.mod_pos_bound n 10); lia).
  destruct (n <? 10); [constructor; [exact Hd|constructor]|].
  rewrite dec_digits_acc. apply Forall_app. split; [apply IH|].
  constructor; [exact Hd|constructor].
Qed.

Lemma dec_digits_length fuel : forall n,
  (length (dec_digits fuel n []) <= fuel)%nat.
Proof.
  induction fuel as [|f IH]; intros n; simpl; [lia|].
  destruct (n <? 10); [simpl; lia|].
  rewrite dec_digits_acc, length_app. specialize (IH (n / 10)). simpl. lia.
Qed.

Lemma dec_digits_nonempty fuel n : dec_digits (S fuel) n [] <> [].
Proof.
  simpl. destruct (n <? 10); [discriminate|].
  rewrite dec_digits_acc. destruct (dec_digits fuel (n / 10) []); discriminate.
Qed.

Lemma dec_digits_value fuel : forall n,
  0 <= n < 2 ^ Z.of_nat fuel -> dec_value (dec_digits fuel n []) = n.
Proof.
  induction fuel as [|f IH]; intros n Hn.
  - simpl in Hn. assert (n = 0) by lia. subst. reflexivity.
  - simpl. destruct (Z.ltb_spec n 10) as [Hlt|Hge].
    + unfold dec_value, digits_value. simpl. rewrite Z.mod_small by lia. lia.
    + rewrite dec_digits_acc, dec_value_snoc, IH.
      * pose proof (Z.div_mod n 10). lia.
      * rewrite Nat2Z.inj_succ, Z.pow_succ_r in Hn by lia.
        split; [apply Z.div_pos; lia|].
        apply Z.div_lt_upper_bound; lia.
Qed.

Lemma toString_digits n : 0 <= n -> Forall is_dec_digit (toString n).
Proof.
  intros Hn. unfold toString. zbool. apply dec_digits_digits.
Qed.

Lemma toString_nonempty n : 0 <= n -> toString n <> [].
Proof. intros Hn. unfold toString. zbool. apply dec_digits_nonempty. Qed.

Lemma toString_length n :
  0 <= n -> (length (toString n) <= S (Z.to_nat (Z.log2 n)))%nat.
Proof.
  intros Hn. unfold toString. zbool. rewrite Z.abs_eq by lia.
  apply dec_digits_length.
Qed.

Lemma toString_value n : 0 <= n -> dec_value (toString n) = n.
Proof.
  intros Hn. unfold toString. zbool. rewrite Z.abs_eq by lia.
  apply dec_digits_value. split; [lia|].
  rewrite Nat2Z.inj_succ, Z2Nat.id by apply Z.log2_nonneg.
  destruct (Z.eq_dec n 0) as [->|Hne]; [reflexivity|].
  apply Z.log2_spec. lia.
Qed.

Lemma digit_prefix_dec s :
  Forall is_dec_digit s -> digit_prefix 10 s = (fun c => c - 48) <$> s.
Proof.
  induction 1 as [|c s Hc _ IH]; simpl; [reflexivity|].
  rewrite (dec_digit_val _ Hc). unfold is_dec_digit in Hc. zbool.
  rewrite IH. reflexivity.
Qed.

(** [parseInt] reads back a string of decimal digits. *)
Lemma parseInt_dec s :
  Forall is_dec_digit s -> s <> [] -> parseInt s = Some (dec_value s).
Proof.
  intros Hs Hne. destruct s as [|c t]; [congruence|].
  pose proof (Forall_inv Hs) as Hc. unfold parseInt.
  rewrite trimStart_head
    by (simpl; intros ? [= <-]; apply dec_digit_not_ws, Hc).
  assert (Hsign : match c :: t with
                  | 45 :: t0 => (-1, t0) | 43 :: t0 => (1, t0)
                  | _ => (1, c :: t) end = (1, c :: t)).
  { unfold is_dec_digit in Hc.
    destruct c as [|p|p]; try lia.
    do 6 (destruct p as [p|p|]; try reflexivity; try lia). }
  rewrite Hsign.
  assert (Hradix : match c :: t with
                   | 48 :: 120 :: t0 => (16, t0) | 48 :: 88 :: t0 => (16, t0)
                   | _ => (10, c :: t) end = (10, c :: t)).
  { destruct t as [|d t']; [destruct c as [|p|p]; try reflexivity;
        do 6 (destruct p as [p|p|]; try reflexivity)|].
    pose proof (Forall_inv (Forall_inv_tail Hs)) as Hd.
    unfold is_dec_digit in Hd.
    destruct c as [|p|p]; try reflexivity.
    do 6 (destruct p as [p|p|]; try reflexivity).
    all: destruct d as [|q|q]; try reflexivity; try lia.
    all: do 7 (destruct q as [q|q|]; try reflexivity; try lia). }
  rewrite Hradix, digit_prefix_dec by exact Hs.
  unfold dec_value. cbn [fmap list_fmap].
  destruct (digits_value 10 _); reflexivity.
Qed.

Lemma parseInt_toString n : 0 <= n -> parseInt (toString n) = Some n.
Proof.
  intros Hn. rewrite parseInt_dec, toString_value; auto using toString_digits, toString_nonempty.
Qed.

End JSFacts.

(* ===================================================================== *)
(** ** The raster decoder *)
(* ===================================================================== *)

Module PgmFacts.
Import JS Pgm Samples JSFacts.

Lemma copyPixels_closed pixelData : forall bound arr,
  (bound <= length pixelData)%nat -> (bound <= length arr)%nat ->
  copyPixels pixelData arr bound = take bound pixelData ++ drop bound arr.
Proof.
  unfold copyPixels. induction bound as [|b IH]; intros arr Hp Ha.
  - reflexivity.
  - rewrite seq_S, fold_left_app, IH by lia. cbn [fold_left Nat.add].
    destruct (lookup_lt_is_Some_2 pixelData b ltac:(lia)) as [p Hpb].
    rewrite Hpb, (take_S_r _ _ _ Hpb).
    rewrite insert_app_r_alt by (rewrite length_take; lia).
    rewrite length_take, Nat.min_l, Nat.sub_diag by lia.
    destruct (drop b arr) as [|x rest] eqn:Hd.
    { apply (f_equal length) in Hd. rewrite length_drop in Hd. simpl in Hd. lia. }
    rewrite <- app_assoc. cbn [insert list_insert app].
    replace (drop (S b) arr) with rest; [reflexivity|].
    rewrite <- (Nat.add_1_r b), <- drop_drop, Hd. reflexivity.
Qed.

(** The cells the pixel stage produces: the payload cut at
    [width * height] cells, then the sentinel 255. *)
Lemma readPixels_data view h :
  0 <= h_width h * h_height h <= 4294967295 ->
  let n := Z.to_nat (h_width h * h_height h) in
  let pixelData := drop (actualHeaderEnd h) view in
  readPixels view h =
    inr {| width := h_width h; height := h_height h;
           resolution := res_default; origin := (0, 0, 0)%float;
           data := take n pixelData ++ replicate (n - length pixelData) 255 |}.
Proof.
  intros Hn n pixelData. unfold readPixels, newArrayFill. zbool. cbn [orb].
  fold pixelData. fold n. do 2 f_equal.
  rewrite copyPixels_closed by (rewrite ?length_replicate; lia).
  rewrite drop_replicate. f_equal.
  - destruct (Nat.le_ge_cases (length pixelData) n) as [Hle|Hge].
    + rewrite Nat.min_l, !take_ge by lia. reflexivity.
    + rewrite Nat.min_r by lia. reflexivity.
  - f_equal. lia.
Qed.

Lemma readPixels_throws view h :
  h_width h * h_height h < 0 \/ 4294967295 < h_width h * h_height h ->
  readPixels view h = inl RangeError.
Proof.
  intros Hn. unfold readPixels, newArrayFill.
  destruct Hn; zbool; rewrite ?orb_true_r; reflexivity.
Qed.

(** *** The header stage on an encoded grid *)

Lemma scanHeader_text pre : forall rest i,
  Forall (fun c => is_binary c = false) pre ->
  fst (scanHeader (pre ++ rest) i) = pre ++ fst (scanHeader rest (length pre + i)).
Proof.
  induction pre as [|c pre IH]; intros rest i Hpre; [reflexivity|].
  cbn [app scanHeader]. rewrite (Forall_inv Hpre).
  specialize (IH rest (S i) (Forall_inv_tail Hpre)).
  destruct (scanHeader (pre ++ rest) (S i)) as [s e]. cbn [fst] in *.
  rewrite IH. cbn [length]. rewrite Nat.add_succ_r. reflexivity.
Qed.

Lemma startsWith_app s p : startsWith (p ++ s) p = true.
Proof.
  induction p as [|c p IH]; cbn [app].
  - destruct s; reflexivity.
  - cbn [startsWith]. rewrite Z.eqb_refl. exact IH.
Qed.

Lemma includes_suffix x p : includes (x ++ p) p = true.
Proof.
  induction x as [|c x IH]; cbn [app].
  - pose proof (startsWith_app [] p) as H. rewrite app_nil_r in H.
    destruct p; cbn [includes]; rewrite H; reflexivity.
  - cbn [includes]. rewrite IH. apply orb_true_r.
Qed.

Lemma includes_drop k : forall s p,
  includes (drop k s) p = true -> includes s p = true.
Proof.
  induction k as [|k IH]; intros s p H; [exact H|].
  destruct s as [|c s]; [exact H|]. cbn [drop] in H.
  cbn [includes]. rewrite (IH _ _ H). apply orb_true_r.
Qed.

Lemma findHeaderEnd_skip ms post seg : forall pre steps,
  Forall (fun c => c <> 10) seg ->
  findHeaderEnd (pre ++ seg ++ post) ms (length seg + steps) (length pre) =
  findHeaderEnd (pre ++ seg ++ post) ms steps (length pre + length seg).
Proof.
  induction seg as [|c seg IH]; intros pre steps Hseg.
  - cbn [length]. rewrite Nat.add_0_r. reflexivity.
  - cbn [length Nat.add findHeaderEnd app].
    rewrite (list_lookup_middle pre (seg ++ post) c (length pre) eq_refl).
    rewrite bool_decide_eq_false_2
      by (intros [= ->]; exact (Forall_inv Hseg eq_refl)).
    cbn [andb].
    specialize (IH (pre ++ [c]) steps (Forall_inv_tail Hseg)).
    rewrite <- app_assoc, length_app in IH. cbn [app length] in IH.
    rewrite Nat.add_1_r in IH. rewrite IH. f_equal. lia.
Qed.

Lemma findHeaderEnd_newline ms pre post steps :
  findHeaderEnd (pre ++ 10 :: post) ms (S steps) (length pre) =
  if includes (drop (length pre - 10) pre) ms then S (length pre)
  else findHeaderEnd (pre ++ 10 :: post) ms steps (S (length pre)).
Proof.
  cbn [findHeaderEnd].
  rewrite (list_lookup_middle pre post 10 (length pre) eq_refl).
  rewrite bool_decide_eq_true_2 by reflexivity. cbn [andb].
  unfold slice. rewrite take_app_length. reflexivity.
Qed.

(** Three newline-terminated lines [l1], [l2], [l3]: the search stops after
    the third when only there the window shows the text of [maxval]. *)
Lemma findHeaderEnd_third_line ms l1 l2 l3 post :
  Forall (fun c => c <> 10) l1 ->
  Forall (fun c => c <> 10) l2 ->
  Forall (fun c => c <> 10) l3 ->
  includes l1 ms = false ->
  includes (l1 ++ 10 :: l2) ms = false ->
  (length ms <= 10)%nat ->
  (exists x, l3 = x ++ ms) ->
  let view := l1 ++ 10 :: l2 ++ 10 :: l3 ++ 10 :: post in
  findHeaderEnd view ms (length view) 0 =
  length (l1 ++ 10 :: l2 ++ 10 :: l3 ++ [10]).
Proof.
  intros H1 H2 H3 Hi1 Hi2 Hten [x Hx] view.
  assert (Hno : forall k s, includes s ms = false -> includes (drop k s) ms = false).
  { intros k s Hs. destruct (includes (drop k s) ms) eqn:E; [|reflexivity].
    apply includes_drop in E. congruence. }
  replace (length view) with
    (length l1 + S (length l2 + S (length l3 + S (length post))))%nat
    by (unfold view; list_len).
  (* the first line *)
  pose proof (findHeaderEnd_skip ms (10 :: l2 ++ 10 :: l3 ++ 10 :: post)
                l1 [] (S (length l2 + S (length l3 + S (length post)))) H1)
    as E1.
  cbn [app length Nat.add] in E1. fold view in E1. rewrite E1. clear E1.
  unfold view at 1. rewrite findHeaderEnd_newline, (Hno _ _ Hi1). fold view.
  (* the second line *)
  pose proof (findHeaderEnd_skip ms (10 :: l3 ++ 10 :: post)
                l2 (l1 ++ [10]) (S (length l3 + S (length post))) H2) as E2.
  rewrite <- !app_assoc in E2. cbn [app] in E2. fold view in E2.
  rewrite length_app in E2. cbn [length] in E2. rewrite Nat.add_1_r in E2.
  rewrite E2. clear E2.
  assert (Ev2 : view = (l1 ++ 10 :: l2) ++ 10 :: l3 ++ 10 :: post)
    by (unfold view; rewrite <- !app_assoc; reflexivity).
  replace (S (length l1) + length l2)%nat with (length (l1 ++ 10 :: l2))
    by list_len.
  rewrite Ev2 at 1. rewrite findHeaderEnd_newline, (Hno _ _ Hi2). rewrite <- Ev2.
  (* the third line *)
  pose proof (findHeaderEnd_skip ms (10 :: post) l3
                ((l1 ++ 10 :: l2) ++ [10]) (S (length post)) H3) as E3.
  assert (Ev3 : view = ((l1 ++ 10 :: l2) ++ [10]) ++ l3 ++ 10 :: post)
    by (unfold view; rewrite <- !app_assoc; reflexivity).
  rewrite <- Ev3 in E3.
  replace (length ((l1 ++ 10 :: l2) ++ [10])) with (S (length (l1 ++ 10 :: l2)))
    in E3 by list_len.
  rewrite E3. clear E3.
  assert (Ev4 : view = (l1 ++ 10 :: l2 ++ 10 :: l3) ++ 10 :: post)
    by (unfold view; rewrite <- !app_assoc; cbn [app]; rewrite <- !app_assoc;
        reflexivity).
  replace (S (length (l1 ++ 10%Z :: l2)) + length l3)%nat
    with (length (l1 ++ 10 :: l2 ++ 10 :: l3)) by list_len.
  rewrite Ev4 at 1. rewrite findHeaderEnd_newline.
  assert (Hhit : includes (drop (length (l1 ++ 10 :: l2 ++ 10 :: l3) - 10)
                             (l1 ++ 10 :: l2 ++ 10 :: l3)) ms = true).
  { rewrite Hx.
    replace (l1 ++ 10 :: l2 ++ 10 :: x ++ ms)
      with ((l1 ++ 10 :: l2 ++ 10 :: x) ++ ms)
      by (rewrite <- !app_assoc; cbn [app]; rewrite <- !app_assoc; reflexivity).
    rewrite drop_app_le by list_len. apply includes_suffix. }
  rewrite Hhit. list_len.
Qed.

Lemma dec_digit_text c : is_dec_digit c ->
  c <> 10 /\ c <> 13 /\ c <> 35 /\ is_binary c = false.
Proof.
  unfold is_dec_digit, is_binary. intros H.
  split; [lia|split; [lia|split; [lia|]]]. zbool. reflexivity.
Qed.

Lemma encode_lines w h cells :
  encode w h cells =
  [80; 53] ++ 10 :: (toString w ++ 32 :: toString h) ++ 10 :: [50; 53; 53] ++ 10 :: cells.
Proof.
  unfold encode, encode_header. change (lit "P5") with [80; 53].
  change (lit "255") with [50; 53; 53].
  rewrite <- !app_assoc. reflexivity.
Qed.

Lemma toString_small n : 0 <= n < 2 ^ 32 -> (length (toString n) <= 32)%nat.
Proof.
  intros Hn. pose proof (toString_length n ltac:(lia)) as Hl.
  assert (Z.log2 n < 32).
  { destruct (Z.eq_dec n 0) as [->|]; [reflexivity|]. apply Z.log2_lt_pow2; lia. }
  pose proof (Z.log2_nonneg n). lia.
Qed.

Lemma validLines_header D p :
  Forall (fun c => c <> 10 /\ c <> 13) D ->
  (exists a mid b, D = a :: mid ++ [b] /\ is_dec_digit a /\ is_dec_digit b) ->
  validLines ([80; 53] ++ 10 :: D ++ 10 :: [50; 53; 53] ++ 10 :: p) =
  [80; 53] :: D :: [50; 53; 53] ::
    List.filter (fun l => negb (eqb_str l []) && negb (startsWith l (lit "#")))
                (trim <$> split_lines p).
Proof.
  intros HD (a & mid & b & -> & Ha & Hb). unfold validLines.
  rewrite (split_lines_line [80; 53])
    by (repeat constructor; lia).
  rewrite (split_lines_line _ _ HD).
  rewrite (split_lines_line [50; 53; 53])
    by (repeat constructor; lia).
  cbn [fmap list_fmap].
  rewrite (trim_ends a mid b) by (apply dec_digit_not_ws; assumption).
  change (trim [80; 53]) with [80; 53].
  change (trim [50; 53; 53]) with [50; 53; 53].
  cbn [List.filter].
  change (negb (eqb_str [80; 53] []) && negb (startsWith [80; 53] (lit "#")))
    with true.
  change (negb (eqb_str [50; 53; 53] []) && negb (startsWith [50; 53; 53] (lit "#")))
    with true.
  cbv iota.
  replace (negb (eqb_str (a :: mid ++ [b]) []) &&
           negb (startsWith (a :: mid ++ [b]) (lit "#"))) with true;
    [reflexivity|].
  change (lit "#") with [35]. cbn [startsWith]. unfold eqb_str.
  rewrite bool_decide_eq_false_2 by discriminate.
  unfold is_dec_digit in Ha. zbool. reflexivity.
Qed.

Lemma parseHeader_encode w h cells :
  0 < w < 2 ^ 32 -> 0 < h < 2 ^ 32 ->
  includes (toString w ++ 32 :: toString h) (lit "255") = false ->
  parseHeader (encode w h cells) =
  inr {| h_width := w; h_height := h; h_maxval := 255;
         actualHeaderEnd := length (encode_header w h) |}.
Proof.
  intros Hw Hh Hslip.
  pose proof (toString_digits w ltac:(lia)) as HW.
  pose proof (toString_digits h ltac:(lia)) as HH.
  pose proof (toString_nonempty w ltac:(lia)) as HWne.
  pose proof (toString_nonempty h ltac:(lia)) as HHne.
  pose proof (toString_small w ltac:(lia)) as HWlen.
  pose proof (toString_small h ltac:(lia)) as HHlen.
  pose proof (parseInt_toString w ltac:(lia)) as HWp.
  pose proof (parseInt_toString h ltac:(lia)) as HHp.
  assert (Hlenhdr : length (encode_header w h) =
                    length ([80; 53] ++ 10 :: (toString w ++ 32 :: toString h)
                            ++ 10 :: [50; 53; 53] ++ [10])).
  { unfold encode_header. change (lit "P5") with [80; 53].
    change (lit "255") with [50; 53; 53]. rewrite <- !app_assoc. reflexivity. }
  rewrite Hlenhdr, encode_lines. clear Hlenhdr.
  change (lit "255") with [50; 53; 53] in Hslip.
  remember (toString w) as W eqn:EW. remember (toString h) as H eqn:EH.
  clear EW EH.
  set (D := W ++ 32 :: H) in *.
  assert (HD : Forall (fun c => is_dec_digit c \/ c = 32) D).
  { apply Forall_app. split; [|constructor; [right; reflexivity|]];
      eapply Forall_impl; eauto. }
  assert (HD10 : Forall (fun c => c <> 10 /\ c <> 13) D).
  { eapply Forall_impl; [exact HD|]. intros c [Hc| ->]; [|lia].
    apply dec_digit_text in Hc. tauto. }
  assert (HDbin : Forall (fun c => is_binary c = false) D).
  { eapply Forall_impl; [exact HD|]. intros c [Hc| ->]; [|reflexivity].
    apply dec_digit_text in Hc. tauto. }
  assert (HDends : exists a mid b,
             D = a :: mid ++ [b] /\ is_dec_digit a /\ is_dec_digit b).
  { destruct W as [|a W']; [congruence|].
    destruct (exists_last HHne) as (H' & b & EH).
    exists a, (W' ++ 32 :: H'), b. split; [|split].
    - unfold D. rewrite EH, <- app_assoc. reflexivity.
    - exact (Forall_inv HW).
    - rewrite EH in HH. apply Forall_app in HH. exact (Forall_inv (proj2 HH)). }
  assert (HDlen : (length D <= 65)%nat) by (unfold D; list_len).
  set (hdr := [80; 53] ++ 10 :: D ++ 10 :: [50; 53; 53] ++ [10]).
  set (view := [80; 53] ++ 10 :: D ++ 10 :: [50; 53; 53] ++ 10 :: cells).
  assert (Eview : view = hdr ++ cells)
    by (unfold view, hdr; cbn [app]; rewrite <- !app_assoc; reflexivity).
  assert (Hhdrlen : (length hdr <= 1000)%nat) by (unfold hdr; list_len).
  unfold parseHeader.
  (* the header text *)
  assert (Escan : exists p, fst (scanHeader (take 1000 view) 0) =
                            [80; 53] ++ 10 :: D ++ 10 :: [50; 53; 53] ++ 10 :: p).
  { rewrite Eview, take_app_ge by exact Hhdrlen.
    eexists. rewrite scanHeader_text.
    - unfold hdr. cbn [app]. rewrite <- !app_assoc. cbn [app]. reflexivity.
    - unfold hdr. cbn [app]. repeat (constructor; [reflexivity|]).
      apply Forall_app. split; [exact HDbin|]. repeat constructor. }
  destruct Escan as [p Escan].
  destruct (scanHeader (take 1000 view) 0) as [headerStr headerEnd].
  cbn [fst] in Escan. subst headerStr.
  rewrite (validLines_header D p HD10 HDends).
  change (negb (eqb_str [80; 53] (lit "P5"))) with false. cbv iota.
  (* the dimensions *)
  destruct H as [|c H']; [congruence|].
  assert (Hsplit : split_ws D = [W; c :: H']).
  { apply split_ws_two; eapply Forall_impl; eauto using dec_digit_not_ws. }
  rewrite Hsplit. cbn [List.filter]. unfold eqb_str at 1 2.
  rewrite !bool_decide_eq_false_2 by congruence. cbn [negb].
  rewrite HWp, HHp. change (parseInt [50; 53; 53]) with (Some 255).
  cbv beta iota zeta.
  (* the end of the header *)
  change (toString 255) with [50; 53; 53].
  change (findP5 view 0) with O. rewrite Nat.sub_0_r.
  unfold view.
  rewrite (findHeaderEnd_third_line [50; 53; 53] [80; 53] D [50; 53; 53] cells).
  - rewrite bool_decide_eq_false_2 by list_len. reflexivity.
  - repeat constructor; lia.
  - eapply Forall_impl; [exact HD10|]. tauto.
  - repeat constructor; lia.
  - reflexivity.
  - exact Hslip.
  - cbn [length]. lia.
  - exists []. reflexivity.
Qed.

(** *** The claims about the raster decoder *)

Lemma createDummyMap_placeholder why : is_placeholder (createDummyMap why).
Proof. repeat split. Qed.

Lemma parseHeader_irrecoverable bytes :
  (exists l, header_lines bytes !! O = Some l /\ l <> lit "P5")
  \/ (exists dims tok, header_lines bytes !! 1%nat = Some dims /\
                       In tok (dimension_tokens dims) /\ parseInt tok = None)
  \/ (exists l, header_lines bytes !! 2%nat = Some l /\ parseInt l = None) ->
  exists why, parseHeader bytes = inl why.
Proof.
  unfold parseHeader, header_lines, dimension_tokens.
  destruct (scanHeader (take 1000 bytes) 0) as [headerStr headerEnd]. cbn [fst].
  destruct (validLines headerStr) as [|format [|dims [|maxvalLine rest]]];
    try (intros _; eexists; reflexivity).
  intros Hbad. unfold eqb_str at 1.
  destruct (decide (format = lit "P5")) as [Hf|Hf].
  2:{ rewrite bool_decide_eq_false_2 by exact Hf. eexists; reflexivity. }
  rewrite bool_decide_eq_true_2 by exact Hf. cbn [negb].
  destruct (List.filter _ (split_ws dims)) as [|tw [|th [|? ?]]] eqn:Etok;
    try (eexists; reflexivity).
  destruct Hbad as [(l & [= <-] & Hl)|[(d & tok & [= <-] & Hin & Htok)|(l & [= <-] & Hl)]].
  - congruence.
  - rewrite Etok in Hin. destruct Hin as [<-|[<-|[]]]; rewrite Htok.
    + eexists; reflexivity.
    + destruct (parseInt tw); eexists; reflexivity.
  - rewrite Hl. destruct (parseInt tw), (parseInt th); eexists; reflexivity.
Qed.

(** C1 (amended).  For every byte sequence [parsePgmFile] resolves with a
    grid: the placeholder, or the grid the pixel stage read after a header
    was parsed (an exception of the [try] block ends in the placeholder).
    On every irrecoverable problem - no bytes, fewer than 20 bytes, a first
    header line other than [P5], a width or height token or a maxval line
    that [parseInt] reads as [NaN] - the result is the fixed 100x100 grid
    whose cells are all [-1]. *)
Theorem parsePgmFile_total_placeholder bytes :
  (is_placeholder (parsePgmFile bytes) \/
   exists h, parseHeader bytes = inr h /\
             readPixels bytes h = inr (parsePgmFile bytes))
  /\ (irrecoverable bytes -> is_placeholder (parsePgmFile bytes)).
Proof.
  split.
  - unfold parsePgmFile.
    case_bool_decide; [left; apply createDummyMap_placeholder|].
    destruct (_ <? _)%nat; [left; apply createDummyMap_placeholder|].
    destruct (parseHeader bytes) as [why|h]; [left; apply createDummyMap_placeholder|].
    destruct (readPixels bytes h) as [e|m] eqn:E;
      [left; apply createDummyMap_placeholder|].
    right. exists h. split; [reflexivity|exact E].
  - intros Hbad. unfold parsePgmFile.
    case_bool_decide; [apply createDummyMap_placeholder|].
    destruct (Nat.ltb_spec (length bytes) 20) as [Hlt|Hge];
      [apply createDummyMap_placeholder|].
    destruct Hbad as [->|[Hlt|Hbad]]; [simpl in *; lia|lia|].
    destruct (parseHeader_irrecoverable bytes Hbad) as [why ->].
    apply createDummyMap_placeholder.
Qed.

Lemma parsePgmFile_total_placeholder_witness :
  irrecoverable wrong_marker_file /\
  is_placeholder (parsePgmFile wrong_marker_file).
Proof.
  assert (H : irrecoverable wrong_marker_file).
  { right; right; left. exists (lit "XX"). split; [reflexivity|discriminate]. }
  split; [exact H|].
  exact (proj2 (parsePgmFile_total_placeholder wrong_marker_file) H).
Defined.

(** C1, as stated, fails: a width token [0] is not a positive integer, yet
    the decoder accepts the header and resolves with a grid of width 0 and
    no cells instead of the placeholder. *)
Lemma zero_width_not_placeholder :
  length zero_width_file = 21%nat
  /\ take 3 (header_lines zero_width_file) = [lit "P5"; lit "0 5"; lit "255"]
  /\ parseInt (lit "0") = Some 0
  /\ parseHeader zero_width_file =
    inr {| h_width := 0; h_height := 5; h_maxval := 255; actualHeaderEnd := 11 |}
  /\ parsePgmFile zero_width_file =
       {| width := 0; height := 5; resolution := res_default;
          origin := (0, 0, 0)%float; data := [] |}
  /\ ~ is_placeholder (parsePgmFile zero_width_file).
Proof.
  split; [reflexivity|]. split; [vm_compute; reflexivity|].
  split; [vm_compute; reflexivity|].
  split; [vm_compute; reflexivity|]. split; [vm_compute; reflexivity|].
  intros (Hw & _). vm_compute in Hw. discriminate.
Qed.

(** C4 (amended).  For every input of at least 20 bytes whose header parses
    with numbers that a Number holds exactly (at most 2^53 in magnitude):
    when [width * height] is an array length (between 0 and 2^32 - 1), the
    grid has the header's dimensions and exactly [width * height] cells,
    the payload cut at [width * height] bytes followed by the sentinel 255
    for every missing byte, so that a payload five bytes short decodes
    into the payload followed by five cells 255; when [width * height] is
    not an array length, the result is the 100x100 placeholder. *)
Theorem payload_padded_to_size bytes h :
  (20 <= length bytes)%nat ->
  parseHeader bytes = inr h ->
  exact_number (h_width h) -> exact_number (h_height h) ->
  exact_number (h_maxval h) ->
  let m := parsePgmFile bytes in
  let n := Z.to_nat (h_width h * h_height h) in
  let payload := drop (actualHeaderEnd h) bytes in
  (0 <= h_width h * h_height h <= 4294967295 ->
     width m = h_width h /\ height m = h_height h
     /\ length (data m) = n
     /\ data m = take n payload ++ replicate (n - length payload) 255
     /\ ((length payload + 5)%nat = n -> data m = payload ++ replicate 5 255))
  /\ (h_width h * h_height h < 0 \/ 4294967295 < h_width h * h_height h ->
      is_placeholder m).
Proof.
  intros Hlen Hh _ _ _ m n payload.
  assert (Em : m = match readPixels bytes h with
                   | inl _ => createDummyMap ParsingError
                   | inr mapData => mapData
                   end).
  { unfold m, parsePgmFile.
    rewrite bool_decide_eq_false_2 by lia.
    destruct (Nat.ltb_spec (length bytes) 20); [lia|].
    rewrite Hh. reflexivity. }
  split.
  - intros Hn. rewrite Em, (readPixels_data bytes h Hn).
    fold n. fold payload. cbn [width height data].
    split; [reflexivity|]. split; [reflexivity|].
    split; [|split; [reflexivity|]].
    + rewrite length_app, length_take, length_replicate. lia.
    + intros H5. rewrite take_ge by lia. f_equal. f_equal. lia.
  - intros Hn. rewrite Em, (readPixels_throws bytes h Hn).
    apply createDummyMap_placeholder.
Qed.

Lemma payload_padded_to_size_witness :
  data (parsePgmFile short_payload_file) = replicate 15 7 ++ replicate 5 255
  /\ is_placeholder (parsePgmFile oversize_file).
Proof.
  split.
  - refine (proj2 (proj2 (proj2 (proj2 (proj1
      (payload_padded_to_size short_payload_file
         {| h_width := 4; h_height := 5; h_maxval := 255; actualHeaderEnd := 11 |}
         _ _ _ _ _) _)))) _).
    + vm_compute. lia.
    + vm_compute. reflexivity.
    + vm_compute. discriminate.
    + vm_compute. discriminate.
    + vm_compute. discriminate.
    + vm_compute. split; discriminate.
    + reflexivity.
  - refine (proj2
      (payload_padded_to_size oversize_file
         {| h_width := 70000; h_height := 70000; h_maxval := 255;
            actualHeaderEnd := 19 |} _ _ _ _ _) _).
    + vm_compute. lia.
    + vm_compute. reflexivity.
    + vm_compute. discriminate.
    + vm_compute. discriminate.
    + vm_compute. discriminate.
    + right. vm_compute. reflexivity.
Defined.

(** C4, as stated, fails: the header of this file parses (70000 x 70000)
    and its payload is short, but [new Array] refuses the size, the [catch]
    takes over, and the result is the 100x100 placeholder of [-1] cells -
    neither [width * height] cells nor a tail of 255. *)
Lemma oversize_header_not_padded :
  parseHeader oversize_file =
    inr {| h_width := 70000; h_height := 70000; h_maxval := 255;
           actualHeaderEnd := 19 |}
  /\ length oversize_file = 29%nat
  /\ length (drop 19 oversize_file) = 10%nat
  /\ data (parsePgmFile oversize_file) = replicate (Z.to_nat 10000) (-1)
  /\ Z.of_nat (length (data (parsePgmFile oversize_file))) <> 70000 * 70000.
Proof.
  split; [vm_compute; reflexivity|]. split; [reflexivity|].
  split; [reflexivity|].
  split; [vm_compute; reflexivity|]. vm_compute. discriminate.
Qed.

(** Whatever the input, the grid has as many cells as its own dimensions
    say. *)
Lemma parsePgmFile_cells_length bytes :
  Z.of_nat (length (data (parsePgmFile bytes)))
  = width (parsePgmFile bytes) * height (parsePgmFile bytes).
Proof.
  destruct (proj1 (parsePgmFile_total_placeholder bytes))
    as [(Hw & Hh & Hd)|(h & _ & Hread)].
  - rewrite Hw, Hh, Hd, length_replicate. reflexivity.
  - destruct (Z_lt_le_dec (h_width h * h_height h) 0) as [Hneg|Hpos];
      [rewrite readPixels_throws in Hread by lia; discriminate|].
    destruct (Z_lt_le_dec 4294967295 (h_width h * h_height h)) as [Hbig|Hok];
      [rewrite readPixels_throws in Hread by lia; discriminate|].
    rewrite (readPixels_data bytes h) in Hread by lia.
    injection Hread as <-. cbn [data width height].
    rewrite length_app, length_take, length_replicate. lia.
Qed.

(** C7 (amended).  For every well-formed raster with at most 2^32 - 1 cells
    whose encoding has at least 20 bytes and whose dimension line does not
    show the text [255], decoding the encoding gives back the raster
    (under the default resolution and origin). *)
Theorem decode_encode_roundtrip w h cells :
  well_formed w h cells ->
  w * h <= 4294967295 ->
  (20 <= length (encode w h cells))%nat ->
  includes (toString w ++ 32 :: toString h) (lit "255") = false ->
  parsePgmFile (encode w h cells) = grid w h cells.
Proof.
  intros (Hw & Hh & Hcells & _) Hsize Hlen Hslip.
  assert (Hw32 : 0 < w < 2 ^ 32) by (change (2 ^ 32) with 4294967296; nia).
  assert (Hh32 : 0 < h < 2 ^ 32) by (change (2 ^ 32) with 4294967296; nia).
  pose proof (parseHeader_encode w h cells Hw32 Hh32 Hslip) as Hhdr.
  unfold parsePgmFile. rewrite bool_decide_eq_false_2 by lia.
  destruct (Nat.ltb_spec (length (encode w h cells)) 20); [lia|].
  rewrite Hhdr, readPixels_data by (cbn [h_width h_height]; lia).
  cbn [h_width h_height actualHeaderEnd]. unfold grid. do 2 f_equal.
  unfold encode. rewrite drop_app_length.
  replace (Z.to_nat (w * h)) with (length cells) by lia.
  rewrite firstn_all, Nat.sub_diag, app_nil_r. reflexivity.
Qed.

Lemma decode_encode_roundtrip_witness :
  parsePgmFile (encode 4 5 (replicate 20 7)) = grid 4 5 (replicate 20 7).
Proof.
  apply decode_encode_roundtrip.
  - repeat split; try lia. repeat constructor; lia.
  - lia.
  - vm_compute. lia.
  - vm_compute. reflexivity.
Defined.

(** C7, as stated, fails: the encoding of a 1x1 raster has 12 bytes, below
    the 20 bytes the decoder asks for, and decodes to the placeholder. *)
Lemma small_grid_not_restored :
  well_formed 1 1 [7] /\ parsePgmFile (encode 1 1 [7]) <> grid 1 1 [7].
Proof.
  split; [repeat split; try lia; repeat constructor; lia|].
  intros H. apply (f_equal width) in H. vm_compute in H. discriminate.
Qed.

(** The header-end search stops at the dimension line when that line shows
    the text of maxval. *)
Example maxval_in_dimensions_misread :
  well_formed 255 1 (replicate 255 7) /\
  take 4 (data (parsePgmFile (encode 255 1 (replicate 255 7)))) = [50; 53; 53; 10].
Proof.
  split; [|vm_compute; reflexivity].
  repeat split; try lia. apply Forall_replicate. lia.
Qed.

End PgmFacts.

(* ===================================================================== *)
(** ** The metadata decoder *)
(* ===================================================================== *)

Module YamlFacts.
Import JS Yaml Samples JSFacts.

Section DecoderFacts.

Variable parseFloat : list Z -> float.

Lemma includes_char s c :
  includes s [c] = true <-> In c s.
Proof.
  induction s as [|d s IH]; cbn [includes startsWith In].
  - split; [discriminate|tauto].
  - rewrite orb_true_iff, IH, andb_true_iff, Z.eqb_eq.
    destruct s; cbn; intuition congruence.
Qed.

Lemma upto_close_inner inner rest :
  Forall (fun c => c <> 93 /\ is_line_term c = false) inner ->
  upto_close (inner ++ 93 :: rest) = Some inner.
Proof.
  induction 1 as [|c inner [Hc Hl] _ IH]; cbn [app upto_close].
  - reflexivity.
  - zbool. rewrite Hl, IH. reflexivity.
Qed.

Lemma match_brackets_first pre inner rest :
  Forall (fun c => c <> 91) pre ->
  Forall (fun c => c <> 93 /\ is_line_term c = false) inner ->
  match_brackets (pre ++ 91 :: inner ++ 93 :: rest) = Some inner.
Proof.
  intros Hpre Hinner. induction Hpre as [|c pre Hc _ IH]; cbn [app match_brackets].
  - rewrite upto_close_inner by exact Hinner. reflexivity.
  - zbool. exact IH.
Qed.

Lemma parseOrigin_bracketed pre inner rest :
  Forall (fun c => c <> 91) pre ->
  Forall (fun c => c <> 93 /\ is_line_term c = false) inner ->
  parseOrigin parseFloat (pre ++ 91 :: inner ++ 93 :: rest) = coords_of parseFloat inner.
Proof.
  intros Hpre Hinner. unfold parseOrigin.
  change (lit "[") with [91]. change (lit "]") with [93].
  rewrite (proj2 (includes_char _ 91)), (proj2 (includes_char _ 93)).
  - cbn [andb]. rewrite match_brackets_first by assumption. reflexivity.
  - rewrite in_app_iff. right. right. rewrite in_app_iff. right. left. reflexivity.
  - rewrite in_app_iff. right. left. reflexivity.
Qed.

Lemma parseOrigin_bare value :
  includes value (lit "[") && includes value (lit "]") = false ->
  includes value (lit ",") = true ->
  parseOrigin parseFloat value = coords_of parseFloat value.
Proof. intros H1 H2. unfold parseOrigin. rewrite H1, H2. reflexivity. Qed.

Lemma applyLine_ignored md line key value :
  key_value line = Some (key, value) ->
  key <> lit "resolution" -> key <> lit "origin" ->
  applyLine parseFloat md line = md.
Proof.
  intros Hkv H1 H2. unfold applyLine, eqb_str. rewrite Hkv.
  rewrite !bool_decide_eq_false_2 by assumption. reflexivity.
Qed.

(** C9.  A line of the metadata file changes the result only through the
    keys [resolution] and [origin]: a line without a key and a line with
    any other key leave it as it is (such a line can be deleted from the
    file); [resolution] stores [parseFloat] of the value unless that is
    [NaN]; [origin] never touches the resolution, and stores an origin only
    when the value has at least two components that all parse, in which
    case it stores the first two and the third as parsed (a third that is
    a zero is stored as 0), or 0 when there is no third.  The components
    are those of the text between the first brackets, or of the bare
    comma-separated value. *)
Theorem metadata_keys md line :
  (key_value line = None -> applyLine parseFloat md line = md)
  /\ (forall key value, key_value line = Some (key, value) ->
      (key = lit "resolution" ->
         applyLine parseFloat md line =
         if PrimFloat.is_nan (parseFloat value) then md
         else {| md_resolution := Some (parseFloat value);
                 md_origin := md_origin md |})
      /\ (key = lit "origin" ->
          md_resolution (applyLine parseFloat md line) = md_resolution md
          /\ (md_origin (applyLine parseFloat md line) = md_origin md
              \/ exists x y rest,
                   parseOrigin parseFloat value = x :: y :: rest
                   /\ Forall (fun c => PrimFloat.is_nan c = false) (x :: y :: rest))
          /\ (forall x y rest,
                parseOrigin parseFloat value = x :: y :: rest ->
                Forall (fun c => PrimFloat.is_nan c = false) (x :: y :: rest) ->
                md_origin (applyLine parseFloat md line)
                = Some (x, y, match rest with
                              | [] => 0%float
                              | z :: _ => if PrimFloat.is_zero z then 0%float
                                          else z
                              end)))
      /\ (key <> lit "resolution" -> key <> lit "origin" ->
          applyLine parseFloat md line = md))
  /\ (forall pre inner rest,
        Forall (fun c => c <> 91) pre ->
        Forall (fun c => c <> 93 /\ is_line_term c = false) inner ->
        parseOrigin parseFloat (pre ++ 91 :: inner ++ 93 :: rest)
        = coords_of parseFloat inner)
  /\ (forall value,
        includes value (lit "[") && includes value (lit "]") = false ->
        includes value (lit ",") = true ->
        parseOrigin parseFloat value = coords_of parseFloat value)
  /\ (forall key value before after md0,
        key_value line = Some (key, value) ->
        key <> lit "resolution" -> key <> lit "origin" ->
        fold_left (applyLine parseFloat) (before ++ line :: after) md0 =
        fold_left (applyLine parseFloat) (before ++ after) md0)
  /\ (forall content,
        trim content <> [] ->
        parseYamlMetadata parseFloat content =
        Some (fold_left (applyLine parseFloat) (split_lines content)
                        {| md_resolution := None; md_origin := None |})).
Proof.
  split; [|split; [|split; [|split; [|split]]]].
  - intros H. unfold applyLine. rewrite H. reflexivity.
  - intros key value Hkv. split; [|split].
    + intros ->. unfold applyLine. rewrite Hkv. reflexivity.
    + intros ->. unfold applyLine. rewrite Hkv.
      change (eqb_str (lit "origin") (lit "resolution")) with false.
      change (eqb_str (lit "origin") (lit "origin")) with true. cbv iota zeta.
      destruct (parseOrigin parseFloat value) as [|x [|y rest]] eqn:Ec;
        try (cbn; split; [reflexivity|split; [left; reflexivity|discriminate]]).
      destruct (forallb _ (x :: y :: rest)) eqn:Eall.
      * cbn [length andb md_resolution md_origin nth].
        change ((2 <=? S (S (length rest)))%nat) with true. cbn [andb].
        cbn [md_resolution md_origin].
        assert (Hall : Forall (fun c => PrimFloat.is_nan c = false) (x :: y :: rest)).
        { rewrite forallb_forall in Eall. apply Forall_forall. intros c Hc.
          apply list_elem_of_In, Eall in Hc.
          destruct (PrimFloat.is_nan c); [discriminate|reflexivity]. }
        split; [reflexivity|]. split.
        -- right. exists x, y, rest. auto.
        -- intros x' y' rest' [= <- <- <-] _. destruct rest as [|z rest];
             [reflexivity|].
           cbn [lookup list_lookup or_zero].
           rewrite (Forall_inv (Forall_inv_tail (Forall_inv_tail Hall))).
           rewrite orb_false_r. reflexivity.
      * rewrite andb_false_r. split; [reflexivity|].
        split; [left; reflexivity|].
        intros x' y' rest' [= <- <- <-] Hall. exfalso.
        assert (Hall' : forallb (fun c => negb (PrimFloat.is_nan c))
                                (x :: y :: rest) = true).
        { apply forallb_forall. intros c Hc.
          rewrite Forall_forall in Hall. apply list_elem_of_In, Hall in Hc.
          rewrite Hc. reflexivity. }
        congruence.
    + intros H1 H2. eapply applyLine_ignored; eauto.
  - apply parseOrigin_bracketed.
  - apply parseOrigin_bare.
  - intros key value before after md0 Hkv H1 H2.
    rewrite !fold_left_app. cbn [fold_left].
    rewrite (applyLine_ignored _ _ _ _ Hkv H1 H2). reflexivity.
  - intros content Hne. unfold parseYamlMetadata, eqb_str.
    rewrite bool_decide_eq_false_2 by exact Hne. reflexivity.
Qed.

End DecoderFacts.

Lemma metadata_keys_witness :
  md_origin (applyLine sample_parseFloat
               {| md_resolution := None; md_origin := None |}
               (lit "origin: [1, 2, 3]"))
  = Some (1%float, 2%float, 3%float)
  /\ md_origin (applyLine sample_parseFloat
                  {| md_resolution := None; md_origin := None |}
                  (lit "origin: -1, 2"))
     = Some ((-1)%float, 2%float, 0%float).
Proof.
  split.
  - refine (proj2 (proj2 (proj1 (proj2 (proj1 (proj2
      (metadata_keys sample_parseFloat {| md_resolution := None; md_origin := None |}
         (lit "origin: [1, 2, 3]"))) (lit "origin") (lit "[1, 2, 3]") _)) _))
      1%float 2%float [3%float] _ _).
    + vm_compute. reflexivity.
    + reflexivity.
    + vm_compute. reflexivity.
    + repeat constructor.
  - refine (proj2 (proj2 (proj1 (proj2 (proj1 (proj2
      (metadata_keys sample_parseFloat {| md_resolution := None; md_origin := None |}
         (lit "origin: -1, 2"))) (lit "origin") (lit "-1, 2") _)) _))
      (-1)%float 2%float [] _ _).
    + vm_compute. reflexivity.
    + reflexivity.
    + vm_compute. reflexivity.
    + repeat constructor.
Defined.

(** Two components parse, the third does not: the origin is left unset. *)
Example origin_needs_every_component :
  parseOrigin sample_parseFloat (lit "[1, 2, abc]") = [1%float; 2%float; nan]
  /\ applyLine sample_parseFloat {| md_resolution := None; md_origin := None |}
       (lit "origin: [1, 2, abc]")
     = {| md_resolution := None; md_origin := None |}.
Proof. split; vm_compute; reflexivity. Qed.

End YamlFacts.

(* ===================================================================== *)
(** ** The coordinate transform *)
(* ===================================================================== *)

Module TransformFacts.
Import Pgm Transform Samples.

(** [floorZ] is the floor of [±m * 2^e] when the exponent is negative. *)
Lemma floorZ_spec (s : bool) (m : positive) (e : Z) :
  e < 0 ->
  let v := if s then Z.neg m else Z.pos m in
  floorZ s m e * 2 ^ (- e) <= v < (floorZ s m e + 1) * 2 ^ (- e).
Proof.
  intros He v. unfold floorZ. fold v.
  rewrite Z.shiftr_div_pow2 by lia.
  assert (Hp : 0 < 2 ^ (- e)) by (apply Z.pow_pos_nonneg; lia).
  pose proof (Z.div_mod v (2 ^ (- e)) ltac:(lia)) as Hdm.
  pose proof (Z.mod_pos_bound v (2 ^ (- e)) Hp) as Hm.
  nia.
Qed.

(** C2.  [pixelToWorld] returns
    [(origin.x + px * resolution, origin.y + (height - py) * resolution)]
    and [worldToPixel] returns
    [(floor ((wx - origin.x) / resolution),
      floor (height - (wy - origin.y) / resolution))], in binary64, where
    [floor] of a finite number [v] is [v] itself when [v] is an integer by
    its exponent and otherwise the integer [q] with [q <= v < q + 1], and
    [floor] of a zero, an infinity or [NaN] is that value; on the 10x10
    map of resolution 0.05 and origin (-1, -1, 0), [pixelToWorld 0 10] is
    exactly (-1, -1). *)
Theorem transform_formulas w h res ox oy theta cells px py wx wy :
  let mapData := {| width := w; height := h; resolution := res;
                    origin := (ox, oy, theta); data := cells |} in
  pixelToWorld px py mapData
    = (ox + px * res, oy + (Z2float h - py) * res)%float
  /\ worldToPixel wx wy mapData
    = (floor ((wx - ox) / res), floor (Z2float h - (wy - oy) / res))%float
  /\ (forall x s m e,
        Prim2SF x = S754_finite s m e ->
        if 0 <=? e then floor x = x
        else exists q, floor x = Z2float q /\
               q * 2 ^ (- e) <= (if s then Z.neg m else Z.pos m)
                             < (q + 1) * 2 ^ (- e))
  /\ (forall x, (forall s m e, Prim2SF x <> S754_finite s m e) -> floor x = x)
  /\ pixelToWorld 0 10 example_map = (-1, -1)%float
  /\ worldToPixel (-1) (-1) example_map = (0, 10)%float.
Proof.
  intros mapData. split; [reflexivity|]. split; [reflexivity|].
  split; [|split; [|split; reflexivity]].
  - intros x s m e Hx. unfold floor. rewrite Hx.
    destruct (Z.leb_spec 0 e) as [Hge|Hlt]; [reflexivity|].
    exists (floorZ s m e). split; [reflexivity|]. apply floorZ_spec. exact Hlt.
  - intros x Hx. unfold floor.
    destruct (Prim2SF x) as [| | |s m e] eqn:E; try reflexivity.
    destruct (Hx s m e eq_refl).
Qed.

Lemma transform_formulas_witness :
  exists q, floor 0.5 = Z2float q /\ q * 2 ^ 53 <= 4503599627370496 < (q + 1) * 2 ^ 53.
Proof.
  exact (proj1 (proj2 (proj2
    (transform_formulas 10 10 res_default (-1)%float (-1)%float 0%float nil
       0%float 10%float (-1)%float (-1)%float)))
    0.5%float false 4503599627370496%positive (-53) eq_refl).
Defined.

Example floor_values :
  (floor 0.5 = 0 /\ floor (-0.5) = -1 /\ floor 26 = 26 /\ floor (-3.5) = -4
   /\ floor infinity = infinity)%float.
Proof. repeat split. Qed.

End TransformFacts.

(* ===================================================================== *)
(** ** The ROS bridge client *)
(* ===================================================================== *)

Module RosFacts.
Import Ros Samples.
#[local] Open Scope nat_scope.

(** C5 (amended).  When the client is connected, [subscribe] records the
    handler under the topic, overwriting an earlier one, and sends one
    subscribe frame over the current socket.  When it is not connected,
    [subscribe] only logs an error: the registry is unchanged, nothing is
    sent and nothing is kept for later. *)
Theorem subscribe_only_when_connected topic messageType callback st :
  let st' := subscribe topic messageType callback st in
  if isConnected st then
    exists id, ws st = Some id
    /\ st' = log [Sent id (mkFrame "subscribe" topic messageType None)]
               (set_subscribers (<[topic := callback]> (subscribers st)) st)
    /\ subscribers st' !! topic = Some callback
    /\ trace st' = trace st ++ [Sent id (mkFrame "subscribe" topic messageType None)]
  else
    st' = log [ConsoleError] st
    /\ subscribers st' = subscribers st
    /\ trace st' = trace st ++ [ConsoleError].
Proof.
  unfold subscribe, isConnected. cbn zeta.
  destruct (ws st) as [id|]; [case_bool_decide|]; cbn; auto.
  exists id. rewrite lookup_insert_eq. auto.
Qed.

(** C5, as stated, fails: on a client that is not connected, [subscribe]
    leaves the registry without a handler for the topic. *)
Lemma subscribe_disconnected_not_recorded :
  let st := new_service true in
  let h := mkHandler 1 false in
  isConnected st = false
  /\ subscribers (subscribe "a" "t" h st) !! "a" = None.
Proof. split; reflexivity. Qed.

(** *** Dispatch *)

(** C10.  [onmessage] is total and changes nothing but the trace.  It runs a
    handler - once, with the [msg] field of the frame - exactly when the
    frame parses to a value whose [topic] field is a string other than the
    empty one and the registry holds a handler under that string; in every
    other case - a frame that does not parse, a frame without a topic, a
    topic that is [null], [false], a number, an array, an object or the
    empty string, a topic without a handler - no handler runs. *)
Theorem dispatch_iff_registered st parsed :
  exists tail,
    onmessage st parsed = log tail st /\
    ((exists data topic h,
        parsed = Some data
        /\ field "topic" data = Some (JStr topic)
        /\ topic <> ""%string
        /\ subscribers st !! topic = Some h
        /\ calls tail = [(h_id h, field "msg" data)])
     \/ (~ (exists data topic h,
              parsed = Some data
              /\ field "topic" data = Some (JStr topic)
              /\ topic <> ""%string
              /\ subscribers st !! topic = Some h)
         /\ calls tail = [])).
Proof.
  assert (Hlog0 : st = log [] st).
  { destruct st. unfold log. cbn. rewrite app_nil_r. reflexivity. }
  destruct parsed as [data|].
  2:{ exists [ConsoleError]. split; [reflexivity|]. right. split; [|reflexivity].
      intros (? & ? & ? & [=] & _). }
  destruct (field "topic" data) as [[| | |topic| |]|] eqn:Ef.
  4:{ destruct (String.eqb_spec topic "") as [->|Hne].
      - exists []. split.
        + destruct data; try discriminate.
          unfold onmessage. cbv beta iota. rewrite Ef. exact Hlog0.
        + right. split; [|reflexivity].
          intros (d & t & h & [= <-] & Ht & Hnon & _). congruence.
      - assert (Etruthy : truthy (Some (JStr topic)) = true).
        { cbn. destruct (String.eqb_spec topic ""); [contradiction|reflexivity]. }
        destruct (subscribers st !! topic) as [h|] eqn:Er.
        + exists (Called (h_id h) (field "msg" data)
                  :: if h_throws h then [ConsoleError] else []).
          split.
          * destruct data; try discriminate.
            unfold onmessage. cbv beta iota. rewrite Ef, Etruthy.
            cbn [registered]. rewrite Er. reflexivity.
          * left. exists data, topic, h. repeat split; auto.
            destruct (h_throws h); reflexivity.
        + exists []. split.
          * destruct data; try discriminate.
            unfold onmessage. cbv beta iota. rewrite Ef, Etruthy.
            cbn [registered]. rewrite Er. exact Hlog0.
          * right. split; [|reflexivity].
            intros (d & t & h & [= <-] & Ht & _ & Hh). congruence. }
  all: exists (match data with JNull => [ConsoleError] | _ => [] end); split;
    [ destruct data; try discriminate; try reflexivity;
      unfold onmessage; cbv beta iota; rewrite Ef; cbn [truthy registered];
      repeat (case_match; try exact Hlog0); exact Hlog0
    | right; split; [|destruct data; reflexivity];
      intros (d & t & h & [= <-] & Ht & _); congruence ].
Qed.

Lemma dispatch_iff_registered_witness :
  let h := mkHandler 1 false in
  let st := set_subscribers {[ "/odom" := h; "" := h ]} (new_service true) in
  (exists tail,
     onmessage st (Some (JObj [("topic", JStr "/odom"); ("msg", JBool true)]))
     = log tail st
     /\ calls tail = [(1, Some (JBool true))])
  /\ (exists tail,
        onmessage st (Some (JObj [("topic", JStr ""); ("msg", JBool true)]))
        = log tail st
        /\ calls tail = []).
Proof.
  intros h st. split.
  - destruct (dispatch_iff_registered st
        (Some (JObj [("topic", JStr "/odom"); ("msg", JBool true)])))
      as (tail & Hrun & [(d & t & h' & [= <-] & [= <-] & _ & Hh & Hcalls)
                        |[Hno _]]).
    + exists tail. split; [exact Hrun|]. rewrite Hcalls.
      vm_compute in Hh. injection Hh as <-. reflexivity.
    + exfalso. apply Hno. eexists _, "/odom", h.
      split; [reflexivity|]. split; [reflexivity|].
      split; [discriminate|reflexivity].
  - destruct (dispatch_iff_registered st
        (Some (JObj [("topic", JStr ""); ("msg", JBool true)])))
      as (tail & Hrun & [(d & t & h' & [= <-] & [= <-] & Hne & _)
                        |[_ Hcalls]]).
    + exfalso. apply Hne. reflexivity.
    + exists tail. split; [exact Hrun|exact Hcalls].
Defined.

(** A frame whose topic is the empty string is dropped even when a handler
    sits under the empty key. *)
Example empty_topic_dropped :
  let h := mkHandler 1 false in
  let st := set_subscribers {[ "" := h ]} (new_service true) in
  registered st (Some (JStr "")) = Some h
  /\ onmessage st (Some (JObj [("topic", JStr ""); ("msg", JNull)])) = st.
Proof. split; reflexivity. Qed.

(** *** Last registered handler wins *)

Lemma log_subscribers os st : subscribers (log os st) = subscribers st.
Proof. reflexivity. Qed.

Lemma step_subscribers topic st a :
  subscribes_to topic a = false ->
  subscribers (step st a) !! topic = subscribers st !! topic.
Proof.
  destruct a as [c|e]; cbn.
  - destruct c; cbn; intros Hne;
      unfold connect, disconnect, subscribe, publish, advertise;
      repeat (case_match; cbn; try reflexivity); try reflexivity.
    apply lookup_insert_ne. intros ->. rewrite String.eqb_refl in Hne. discriminate.
  - intros _. destruct e; cbn;
      unfold onopen, onclose, onerror, onmessage, handleReconnect, connect;
      repeat (case_match; cbn; try reflexivity); reflexivity.
Qed.

Lemma run_subscribers topic acts : forall st,
  Forall (fun a => subscribes_to topic a = false) acts ->
  subscribers (run acts st) !! topic = subscribers st !! topic.
Proof.
  induction acts as [|a acts IH]; intros st Hacts; [reflexivity|].
  cbn. rewrite IH by exact (Forall_inv_tail Hacts).
  apply step_subscribers, (Forall_inv Hacts).
Qed.

Lemma subscribe_connected topic messageType h st :
  isConnected st = true ->
  isConnected (subscribe topic messageType h st) = true
  /\ subscribers (subscribe topic messageType h st) !! topic = Some h.
Proof.
  unfold isConnected, subscribe. destruct (ws st) as [i|] eqn:E; [|discriminate].
  intros H. cbv beta iota. rewrite H. cbn. rewrite E, H, lookup_insert_eq. auto.
Qed.

(** C8.  After [subscribe topic t h1] and [subscribe topic t h2] on a
    connected client, and whatever happens next short of another
    [subscribe] to that topic, a frame on the topic that an open socket
    delivers runs [h2] once with the frame's [msg] field, and does not run
    [h1]. *)
Theorem last_handler_wins st topic messageType h1 h2 acts id data :
  isConnected st = true ->
  topic <> "" ->
  Forall (fun a => subscribes_to topic a = false) acts ->
  let st' := run acts (subscribe topic messageType h2
                         (subscribe topic messageType h1 st)) in
  sockets st' !! id = Some OPEN ->
  field "topic" data = Some (JStr topic) ->
  exists tail,
    fire (SockMessage id (Some data)) st' = log tail st'
    /\ calls tail = [(h_id h2, field "msg" data)]
    /\ (h_id h1 <> h_id h2 -> Forall (fun c => fst c <> h_id h1) (calls tail)).
Proof.
  intros Hconn Htopic Hacts st' Hopen Hfield.
  assert (Hreg : subscribers st' !! topic = Some h2).
  { unfold st'. rewrite run_subscribers by exact Hacts.
    apply subscribe_connected, subscribe_connected, Hconn. }
  exists (Called (h_id h2) (field "msg" data)
          :: if h_throws h2 then [ConsoleError] else []).
  split; [|destruct (h_throws h2); cbn; split; [reflexivity| |reflexivity|];
            intros Hne; repeat constructor; cbn; congruence].
  unfold fire. rewrite bool_decide_eq_true_2 by exact Hopen.
  assert (Htruthy : truthy (field "topic" data) = true).
  { rewrite Hfield. cbn. destruct (String.eqb_spec topic ""); [congruence|reflexivity]. }
  destruct data; try (cbn in Hfield; discriminate).
  unfold onmessage. cbv beta iota. rewrite Htruthy. unfold registered.
  rewrite Hfield, Hreg. reflexivity.
Qed.

Lemma last_handler_wins_witness :
  exists tail,
    fire (SockMessage 0 (Some (JObj [("topic", JStr "a"); ("msg", JBool true)])))
         (run [Call (Publish "b" "t" None); Event (SockMessage 0 None)]
              (subscribe "a" "t" (mkHandler 2 false)
                 (subscribe "a" "t" (mkHandler 1 false) connected_service)))
    = log tail
          (run [Call (Publish "b" "t" None); Event (SockMessage 0 None)]
               (subscribe "a" "t" (mkHandler 2 false)
                  (subscribe "a" "t" (mkHandler 1 false) connected_service)))
    /\ calls tail = [(2, Some (JBool true))].
Proof.
  destruct (last_handler_wins connected_service "a" "t"
              (mkHandler 1 false) (mkHandler 2 false)
              [Call (Publish "b" "t" None); Event (SockMessage 0 None)] 0
              (JObj [("topic", JStr "a"); ("msg", JBool true)]))
    as (tail & Hfire & Hcalls & _).
  - reflexivity.
  - discriminate.
  - repeat constructor.
  - reflexivity.
  - reflexivity.
  - exists tail. split; [exact Hfire|exact Hcalls].
Defined.

(** *** Reconnection *)

#[local] Arguments Nat.ltb : simpl never.

(** [handleReconnect] sets a timer exactly while the counter is below the
    bound. *)
Lemma handleReconnect_schedules st :
  timers (handleReconnect st) =
  if reconnectAttempts st <? maxReconnectAttempts st
  then S (timers st) else timers st.
Proof.
  unfold handleReconnect.
  destruct (reconnectAttempts st <? maxReconnectAttempts st); reflexivity.
Qed.

Lemma lookup_new_socket (l : list readyState) s : (l ++ [s]) !! length l = Some s.
Proof. apply list_lookup_middle. reflexivity. Qed.

Lemma insert_new_socket (l : list readyState) s s' :
  <[length l := s']> (l ++ [s]) = l ++ [s'].
Proof. rewrite insert_app_r_alt, Nat.sub_diag by lia. reflexivity. Qed.

Lemma failed_attempt_effect st :
  url_ok st = true -> timers st = 1 ->
  let st' := failed_attempt st in
  url_ok st' = true
  /\ maxReconnectAttempts st' = maxReconnectAttempts st
  /\ sockets st' = sockets st ++ [CLOSED]
  /\ ws st' = Some (length (sockets st))
  /\ if (reconnectAttempts st <? maxReconnectAttempts st)%nat
     then timers st' = 1 /\ reconnectAttempts st' = S (reconnectAttempts st)
     else timers st' = 0 /\ reconnectAttempts st' = reconnectAttempts st.
Proof.
  intros Hurl Htimers. unfold failed_attempt.
  set (s1 := set_sockets (sockets st ++ [CONNECTING])
               (set_ws (Some (length (sockets st))) (set_timers 0 st))).
  assert (E1 : fire TimerFire st = s1).
  { cbn [fire]. rewrite Htimers. unfold connect. cbn. rewrite Hurl. reflexivity. }
  assert (E2 : fire (SockError (length (sockets st))) s1
               = log [ConsoleError; Rejected] s1).
  { cbn [fire]. change (sockets s1) with (sockets st ++ [CONNECTING]).
    rewrite lookup_new_socket. reflexivity. }
  rewrite E1, E2. cbn [fire].
  change (sockets (log [ConsoleError; Rejected] s1))
    with (sockets st ++ [CONNECTING]).
  rewrite lookup_new_socket, insert_new_socket.
  unfold onclose, handleReconnect. cbn.
  destruct (reconnectAttempts st <? maxReconnectAttempts st)%nat; cbn;
    repeat split; assumption.
Qed.

Lemma quiescent st e :
  all_closed st -> timers st = 0 -> fire e st = st.
Proof.
  unfold all_closed. intros Hclosed Htimers.
  assert (Hlook : forall id, sockets st !! id = None \/ sockets st !! id = Some CLOSED).
  { intros id. destruct (sockets st !! id) as [s|] eqn:E; [right|left; reflexivity].
    rewrite Forall_lookup in Hclosed. rewrite (Hclosed _ _ E). reflexivity. }
  destruct e as [id|id p|id|id|]; cbn.
  - destruct (Hlook id) as [->| ->]; reflexivity.
  - destruct (Hlook id) as [->| ->]; reflexivity.
  - destruct (Hlook id) as [->| ->]; reflexivity.
  - destruct (Hlook id) as [->| ->]; reflexivity.
  - rewrite Htimers. reflexivity.
Qed.

(** The state after [k] failed attempts that follow the loss of the
    connection. *)
Lemma failed_attempts_invariant st id k :
  url_ok st = true -> ws st = Some id -> sockets st !! id = Some OPEN ->
  (forall j s, j <> id -> sockets st !! j = Some s -> s = CLOSED) ->
  reconnectAttempts st = 0 -> timers st = 0 ->
  k <= maxReconnectAttempts st ->
  let s := Nat.iter k failed_attempt (fire (SockClose id) st) in
  url_ok s = true
  /\ maxReconnectAttempts s = maxReconnectAttempts st
  /\ all_closed s
  /\ length (sockets s) = length (sockets st) + k
  /\ (exists i, ws s = Some i)
  /\ (k < maxReconnectAttempts st -> timers s = 1 /\ reconnectAttempts s = S k)
  /\ (k = maxReconnectAttempts st -> timers s = 0 /\ reconnectAttempts s = k).
Proof.
  intros Hurl Hws Hopen Hothers Hatt Htimers.
  induction k as [|k IH]; intros Hk; cbn zeta.
  - cbn [Nat.iter fire]. rewrite Hopen. unfold onclose, handleReconnect. cbn.
    rewrite Hatt, Htimers.
    assert (Hclosed : Forall (fun s => s = CLOSED) (<[id := CLOSED]> (sockets st))).
    { apply Forall_lookup. intros j s Hj.
      destruct (decide (j = id)) as [->|Hne].
      - rewrite list_lookup_insert_eq in Hj by (eapply lookup_lt_Some; eauto).
        congruence.
      - rewrite list_lookup_insert_ne in Hj by congruence. eauto. }
    destruct (Nat.ltb_spec 0 (maxReconnectAttempts st)); cbn;
      unfold all_closed; cbn; rewrite length_insert, Nat.add_0_r;
      repeat split; eauto; lia.
  - rewrite Nat.iter_succ. specialize (IH ltac:(lia)). cbn zeta in IH.
    set (s := Nat.iter k failed_attempt (fire (SockClose id) st)) in *.
    destruct IH as (Hu & Hm & Hc & Hl & _ & Hlt & _).
    destruct (Hlt ltac:(lia)) as [Ht Ha].
    destruct (failed_attempt_effect s Hu Ht) as (Hu' & Hm' & Hs' & Hw' & Hif).
    rewrite Hm, Ha in Hif.
    split; [exact Hu'|]. split; [congruence|]. split.
    { unfold all_closed. rewrite Hs'. apply Forall_app. split; [exact Hc|].
      repeat constructor. }
    split; [rewrite Hs', length_app; cbn; lia|]. split; [eauto|].
    destruct (Nat.ltb_spec (S k) (maxReconnectAttempts st)); split; intros; lia.
Qed.

(** C6.  When a connected client with no reconnect pending loses its
    connection, every failed reconnect attempt but the last leaves one
    timer pending; after [maxReconnectAttempts] failed attempts no timer is
    pending, the client is not connected, exactly [maxReconnectAttempts]
    sockets were created, and no event can change the state any more. *)
Theorem reconnect_gives_up st id :
  url_ok st = true -> ws st = Some id -> sockets st !! id = Some OPEN ->
  (forall j s, j <> id -> sockets st !! j = Some s -> s = CLOSED) ->
  reconnectAttempts st = 0 -> timers st = 0 ->
  let lost := fire (SockClose id) st in
  (forall k, k < maxReconnectAttempts st ->
             timers (Nat.iter k failed_attempt lost) = 1)
  /\ let final := Nat.iter (maxReconnectAttempts st) failed_attempt lost in
     timers final = 0
     /\ reconnectAttempts final = maxReconnectAttempts st
     /\ isConnected final = false
     /\ length (sockets final) = length (sockets st) + maxReconnectAttempts st
     /\ forall e, fire e final = final.
Proof.
  intros Hurl Hws Hopen Hothers Hatt Htimers lost. split.
  - intros k Hk.
    destruct (failed_attempts_invariant st id k Hurl Hws Hopen Hothers Hatt Htimers
                ltac:(lia)) as (_ & _ & _ & _ & _ & Hlt & _).
    apply (Hlt Hk).
  - destruct (failed_attempts_invariant st id (maxReconnectAttempts st)
                Hurl Hws Hopen Hothers Hatt Htimers ltac:(lia))
      as (_ & _ & Hc & Hl & [i Hi] & _ & Heq).
    destruct (Heq eq_refl) as [Ht Ha]. cbn zeta.
    fold lost in Ht, Ha, Hc, Hl, Hi |- *.
    set (final := Nat.iter _ failed_attempt lost) in *.
    split; [exact Ht|]. split; [exact Ha|]. split; [|split; [exact Hl|]].
    + unfold isConnected. rewrite Hi. apply bool_decide_eq_false_2.
      intros Hopen'. unfold all_closed in Hc. rewrite Forall_lookup in Hc.
      specialize (Hc _ _ Hopen'). discriminate.
    + intros e. apply quiescent; assumption.
Qed.

Lemma reconnect_gives_up_witness :
  let final := Nat.iter 5 failed_attempt (fire (SockClose 0) connected_service) in
  timers final = 0 /\ isConnected final = false /\ length (sockets final) = 6.
Proof.
  pose proof (reconnect_gives_up connected_service 0) as H.
  destruct H as [_ (Ht & _ & Hc & Hl & _)].
  - reflexivity.
  - reflexivity.
  - reflexivity.
  - intros [|j] s Hj; [congruence|]. cbn. discriminate.
  - reflexivity.
  - reflexivity.
  - exact (conj Ht (conj Hc Hl)).
Defined.

(** *** Disconnecting *)

(** What [disconnect] itself does.  From any state it leaves the client
    without a socket reference, so [isConnected] is false; the socket it
    referred to is closing or closed, no other socket is touched and none
    is created; the pending timers, the attempt counter, the registry and
    the trace are as before. *)
Lemma disconnect_closes_current_socket st :
  let st' := disconnect st in
  ws st' = None
  /\ isConnected st' = false
  /\ (forall id s, ws st = Some id -> sockets st !! id = Some s ->
                   sockets st' !! id = Some (close_socket s))
  /\ (forall j, ws st <> Some j -> sockets st' !! j = sockets st !! j)
  /\ length (sockets st') = length (sockets st)
  /\ timers st' = timers st
  /\ reconnectAttempts st' = reconnectAttempts st
  /\ subscribers st' = subscribers st
  /\ trace st' = trace st.
Proof.
  unfold disconnect, isConnected. destruct (ws st) as [id|] eqn:E; cbn.
  - split; [reflexivity|]. split; [reflexivity|]. split.
    { intros i s [= <-] Hs. rewrite list_lookup_alter_eq, Hs. reflexivity. }
    split.
    { intros j Hj. apply list_lookup_alter_ne. congruence. }
    rewrite length_alter. auto.
  - rewrite E. repeat split; auto. intros ? ? [=].
Qed.

(** C3.  The code breaks the claim.  [disconnect] closes the socket without
    taking its handlers off and keeps no handle of the timers: after
    [disconnect] on a connected client the close event of that socket
    schedules a reconnect, the timer runs [connect], and the connection
    callback registered before runs again.  The same happens when
    [disconnect] interrupts a connection attempt, and a timer that was
    pending before [disconnect] still creates a socket afterwards. *)
Lemma disconnect_does_not_stop_reconnect :
  let later :=
    run [Event (SockClose 0); Event TimerFire; Event (SockOpen 1)]
        (disconnect connected_service) in
  let connecting :=
    run [Call (OnConnection 7); Call Connect] (new_service true) in
  let later_in_flight :=
    run [Event (SockError 0); Event (SockClose 0); Event TimerFire;
         Event (SockOpen 1)]
        (disconnect connecting) in
  let waiting := fire (SockClose 0) connected_service in
  (isConnected connected_service = true
   /\ timers (fire (SockClose 0) (disconnect connected_service)) = 1
   /\ length (sockets later) = S (length (sockets connected_service))
   /\ isConnected later = true
   /\ trace later = trace (disconnect connected_service) ++ [ConnectionCb 7])
  /\ (sockets connecting = [CONNECTING]
      /\ trace (disconnect connecting) = []
      /\ connection_calls (trace later_in_flight) = [7])
  /\ (timers waiting = 1
      /\ timers (disconnect waiting) = 1
      /\ length (sockets (fire TimerFire (disconnect waiting)))
         = S (length (sockets (disconnect waiting)))).
Proof. repeat split. Qed.

End RosFacts.

(* ===================================================================== *)
(** ** More on the raster decoder *)
(* ===================================================================== *)

Module PgmMore.
Import JS Pgm Samples MoreSamples JSFacts PgmFacts Commented.

(** The two ways the reader ends: with the placeholder, or with what the
    pixel stage made of a header. *)
Lemma parsePgmFile_cases bytes :
  (exists why, parsePgmFile bytes = createDummyMap why)
  \/ (exists h, parseHeader bytes = inr h
                /\ readPixels bytes h = inr (parsePgmFile bytes)).
Proof.
  unfold parsePgmFile. repeat case_match; eauto.
Qed.

(** Whatever the file, the metadata of the result is the default. *)
Lemma parsePgmFile_default_metadata bytes :
  resolution (parsePgmFile bytes) = res_default
  /\ origin (parsePgmFile bytes) = (0, 0, 0)%float.
Proof.
  destruct (parsePgmFile_cases bytes) as [[why ->]|(h & _ & Hread)];
    [split; reflexivity|].
  unfold readPixels in Hread. destruct (newArrayFill _ _); [discriminate|].
  injection Hread as <-. split; reflexivity.
Qed.


(** *** Header lines *)

Lemma unlines_cons l ls : unlines (l :: ls) = l ++ 10 :: unlines ls.
Proof. unfold unlines. cbn [fmap list_fmap concat]. rewrite <- app_assoc. reflexivity. Qed.

Lemma unlines_app ls1 ls2 : unlines (ls1 ++ ls2) = unlines ls1 ++ unlines ls2.
Proof. unfold unlines. rewrite fmap_app, concat_app. reflexivity. Qed.

(** A text without line feed is not found across a line feed. *)
Lemma startsWith_sep p : forall a b,
  ~ In 10 p -> p <> [] -> startsWith (a ++ 10 :: b) p = startsWith a p.
Proof.
  induction p as [|m p IH]; intros a b Hp Hne; [congruence|].
  destruct a as [|c a]; cbn [app startsWith].
  - rewrite (proj2 (Z.eqb_neq m 10)) by (intros ->; apply Hp; left; reflexivity).
    reflexivity.
  - destruct p as [|m' p'].
    + destruct a, b; reflexivity.
    + rewrite IH; [reflexivity| |discriminate].
      intros Hin. apply Hp. right. exact Hin.
Qed.

Lemma includes_sep p a b :
  ~ In 10 p -> p <> [] ->
  includes (a ++ 10 :: b) p = includes a p || includes b p.
Proof.
  intros Hp Hne. induction a as [|c a IH].
  - pose proof (startsWith_sep p [] b Hp Hne) as H. cbn [app] in H.
    cbn [app includes]. rewrite H.
    destruct p; [congruence|]. reflexivity.
  - pose proof (startsWith_sep p (c :: a) b Hp Hne) as H. cbn [app] in H.
    cbn [app includes]. rewrite H, IH, orb_assoc. reflexivity.
Qed.

(** *** The search for the end of the header, line by line *)

Section Lines.
Variable ms : list Z.
Hypothesis ms_line : ~ In 10 ms.
Hypothesis ms_nonempty : ms <> [].

Lemma includes_unlines done l :
  Forall (quiet ms) done -> includes l ms = false ->
  includes (unlines done ++ l) ms = false.
Proof.
  induction 1 as [|d done [_ Hd] _ IH]; intros Hl; [exact Hl|].
  rewrite unlines_cons, <- app_assoc. cbn [app].
  rewrite includes_sep, Hd, IH by assumption. reflexivity.
Qed.

Lemma findHeaderEnd_lines l3 post :
  Forall (fun c => c <> 10) l3 ->
  (length ms <= 10)%nat ->
  (exists x, l3 = x ++ ms) ->
  forall todo done,
  Forall (quiet ms) done -> Forall (quiet ms) todo ->
  findHeaderEnd (unlines (done ++ todo) ++ l3 ++ 10 :: post) ms
                (length (unlines todo ++ l3 ++ 10 :: post))
                (length (unlines done))
  = length (unlines (done ++ todo) ++ l3 ++ [10]).
Proof.
  intros H3 Hms [x Hx]. induction todo as [|l todo IH]; intros done Hdone Htodo.
  - rewrite app_nil_r. change (unlines [] ++ ?r) with r.
    rewrite length_app.
    rewrite (findHeaderEnd_skip ms (10 :: post) l3 (unlines done)
               (length (10 :: post)) H3).
    rewrite <- length_app, app_assoc. cbn [length].
    rewrite findHeaderEnd_newline.
    replace (includes _ ms) with true; [list_len|].
    symmetry. rewrite Hx, app_assoc, drop_app_le by list_len.
    apply includes_suffix.
  - destruct (Forall_cons_1 _ _ _ Htodo) as [[Hl10 Hlq] Htodo'].
    specialize (IH (done ++ [l])). rewrite <- app_assoc in IH. cbn [app] in IH.
    rewrite <- IH; [|apply Forall_app; split; [exact Hdone|]; repeat constructor;
                      assumption|exact Htodo'].
    set (view := unlines (done ++ l :: todo) ++ l3 ++ 10 :: post).
    set (R := unlines todo ++ l3 ++ 10 :: post).
    assert (Ev : view = unlines done ++ l ++ 10 :: R).
    { unfold view, R. rewrite unlines_app, unlines_cons, <- !app_assoc.
      cbn [app]. reflexivity. }
    rewrite unlines_cons, <- app_assoc. cbn [app]. fold R.
    rewrite length_app. cbn [length].
    rewrite Ev at 1.
    rewrite (findHeaderEnd_skip ms (10 :: R) l (unlines done) (S (length R)) Hl10).
    rewrite <- length_app, app_assoc, findHeaderEnd_newline.
    replace (includes _ ms) with false.
    + rewrite <- app_assoc, <- Ev. f_equal.
      rewrite unlines_app, unlines_cons. unfold unlines at 3. cbn [fmap list_fmap concat].
      list_len.
    + symmetry. apply not_true_is_false. intros Hc.
      apply includes_drop in Hc.
      rewrite includes_unlines in Hc by assumption. discriminate.
Qed.

End Lines.

(** *** Comment lines *)

Lemma trimStart_snoc c : forall x,
  is_ws c = false -> exists y, trimStart (x ++ [c]) = y ++ [c].
Proof.
  intros x Hc. induction x as [|a x [y IH]]; cbn [app trimStart].
  - rewrite Hc. exists []. reflexivity.
  - destruct (is_ws a); [exists y; exact IH|]. exists (a :: x). reflexivity.
Qed.

Lemma trim_hash r : exists y, trim (35 :: r) = 35 :: y.
Proof.
  unfold trim, trimEnd. cbn [trimStart]. change (is_ws 35) with false.
  cbv iota. cbn [rev].
  destruct (trimStart_snoc 35 (rev r) eq_refl) as [y ->].
  exists (rev y). rewrite rev_app_distr. reflexivity.
Qed.

Lemma validLines_keep l r :
  Forall (fun c => c <> 10 /\ c <> 13) l ->
  negb (eqb_str (trim l) []) && negb (startsWith (trim l) (lit "#")) = true ->
  validLines (l ++ 10 :: r) = trim l :: validLines r.
Proof.
  intros Hl Hk. unfold validLines. rewrite (split_lines_line _ _ Hl).
  cbn [fmap list_fmap List.filter]. rewrite Hk. reflexivity.
Qed.

Lemma validLines_comments r cs :
  Forall comment_line cs -> validLines (unlines cs ++ r) = validLines r.
Proof.
  induction 1 as [|c cs (Hhead & Hprint & _) _ IH]; [reflexivity|].
  rewrite unlines_cons, <- app_assoc. cbn [app]. rewrite <- IH.
  unfold validLines at 1. rewrite split_lines_line
    by (eapply Forall_impl; [exact Hprint|]; cbv beta; lia).
  destruct c as [|x c']; [discriminate|]. injection Hhead as ->.
  cbn [fmap list_fmap List.filter].
  destruct (trim_hash c') as [y ->].
  change (lit "#") with [35]. cbn [startsWith]. rewrite Z.eqb_refl.
  replace (startsWith y []) with true by (destruct y; reflexivity).
  rewrite andb_false_r. reflexivity.
Qed.

Lemma comment_line_text c :
  comment_line c -> Forall (fun x => is_binary x = false) c /\ quiet [50; 53; 53] c.
Proof.
  intros (_ & Hprint & Hno). split; [|split; [|exact Hno]];
    (eapply Forall_impl; [exact Hprint|]); cbv beta; intros x Hx; [|lia].
  unfold is_binary. zbool. reflexivity.
Qed.

Lemma unlines_Forall (P : Z -> Prop) ls :
  P 10 -> Forall (Forall P) ls -> Forall P (unlines ls).
Proof.
  intros H10. induction 1 as [|l ls Hl _ IH]; [constructor|].
  rewrite unlines_cons. apply Forall_app. split; [exact Hl|].
  constructor; assumption.
Qed.

Lemma parseHeader_commented cs w h cells :
  0 < w < 2 ^ 32 -> 0 < h < 2 ^ 32 ->
  includes (toString w ++ 32 :: toString h) (lit "255") = false ->
  Forall comment_line cs ->
  (length (encode_commented cs w h []) <= 1000)%nat ->
  parseHeader (encode_commented cs w h cells) =
  inr {| h_width := w; h_height := h; h_maxval := 255;
         actualHeaderEnd := length (encode_commented cs w h []) |}.
Proof.
  intros Hw Hh Hslip Hcs Hlen.
  pose proof (toString_digits w ltac:(lia)) as HW.
  pose proof (toString_digits h ltac:(lia)) as HH.
  pose proof (toString_nonempty w ltac:(lia)) as HWne.
  pose proof (toString_nonempty h ltac:(lia)) as HHne.
  pose proof (parseInt_toString w ltac:(lia)) as HWp.
  pose proof (parseInt_toString h ltac:(lia)) as HHp.
  unfold encode_commented in *.
  change (lit "P5") with [80; 53] in *. change (lit "255") with [50; 53; 53] in *.
  change ([32] ++ toString h) with (32 :: toString h) in *.
  remember (toString w) as W eqn:EW. remember (toString h) as H eqn:EH.
  clear EW EH.
  set (D := W ++ 32 :: H) in *.
  assert (HD : Forall (fun c => is_dec_digit c \/ c = 32) D).
  { apply Forall_app. split; [|constructor; [right; reflexivity|]];
      eapply Forall_impl; eauto. }
  assert (HD10 : Forall (fun c => c <> 10 /\ c <> 13) D).
  { eapply Forall_impl; [exact HD|]. intros c [Hc| ->]; [|lia].
    apply dec_digit_text in Hc. tauto. }
  assert (HDbin : Forall (fun c => is_binary c = false) D).
  { eapply Forall_impl; [exact HD|]. intros c [Hc| ->]; [|reflexivity].
    apply dec_digit_text in Hc. tauto. }
  assert (HDends : exists a mid b,
             D = a :: mid ++ [b] /\ is_dec_digit a /\ is_dec_digit b).
  { destruct W as [|a W']; [congruence|].
    destruct (exists_last HHne) as (H' & b & EH).
    exists a, (W' ++ 32 :: H'), b. split; [|split].
    - unfold D. rewrite EH, <- app_assoc. reflexivity.
    - exact (Forall_inv HW).
    - rewrite EH in HH. apply Forall_app in HH. exact (Forall_inv (proj2 HH)). }
  set (ls := [80; 53] :: cs ++ [D]).
  change ([[80; 53]] ++ cs ++ [D]) with ls in *.
  rewrite app_nil_r in Hlen |- *.
  set (hdr := unlines ls ++ [50; 53; 53] ++ [10]) in *.
  set (view := unlines ls ++ [50; 53; 53] ++ [10] ++ cells).
  assert (Eview : view = hdr ++ cells)
    by (unfold view, hdr; rewrite <- !app_assoc; reflexivity).
  assert (Els : unlines ls = [80; 53] ++ 10 :: unlines cs ++ D ++ [10]).
  { unfold ls. rewrite unlines_cons, unlines_app, (unlines_cons D []).
    reflexivity. }
  unfold parseHeader.
  (* the header text *)
  assert (Escan : exists p, fst (scanHeader (take 1000 view) 0) =
            [80; 53] ++ 10 :: unlines cs ++ D ++ 10 :: [50; 53; 53] ++ 10 :: p).
  { rewrite Eview, take_app_ge by exact Hlen.
    eexists. rewrite scanHeader_text.
    - unfold hdr. rewrite Els, <- !app_assoc. cbn [app]. rewrite <- !app_assoc.
      cbn [app]. reflexivity.
    - unfold hdr. apply Forall_app. split; [|repeat constructor].
      apply unlines_Forall; [reflexivity|].
      unfold ls. constructor; [repeat constructor|].
      apply Forall_app. split; [|repeat constructor; exact HDbin].
      eapply Forall_impl; [exact Hcs|]. intros c Hc.
      apply comment_line_text, Hc. }
  destruct Escan as [p Escan].
  destruct (scanHeader (take 1000 view) 0) as [headerStr headerEnd].
  cbn [fst] in Escan. subst headerStr.
  rewrite (validLines_keep [80; 53]) by (try reflexivity; repeat constructor; lia).
  rewrite (validLines_comments _ cs Hcs).
  pose proof (validLines_header D p HD10 HDends) as Hv.
  rewrite (validLines_keep [80; 53]) in Hv
    by (try reflexivity; repeat constructor; lia).
  injection Hv as Hv.
  change ([50; 53; 53] ++ 10 :: p) with (50 :: 53 :: 53 :: 10 :: p).
  rewrite Hv. clear Hv.
  change (trim [80; 53]) with [80; 53].
  change (negb (eqb_str [80; 53] (lit "P5"))) with false. cbv iota.
  (* the dimensions *)
  destruct H as [|c H']; [congruence|].
  assert (Hsplit : split_ws D = [W; c :: H']).
  { apply split_ws_two; eapply Forall_impl; eauto using dec_digit_not_ws. }
  rewrite Hsplit. cbn [List.filter]. unfold eqb_str at 1 2.
  rewrite !bool_decide_eq_false_2 by congruence. cbn [negb].
  rewrite HWp, HHp. change (parseInt [50; 53; 53]) with (Some 255).
  cbv beta iota zeta.
  (* the end of the header *)
  change (toString 255) with [50; 53; 53].
  replace (findP5 view 0) with O by (unfold view; rewrite Els; reflexivity).
  rewrite Nat.sub_0_r.
  assert (Hend : findHeaderEnd view [50; 53; 53] (length view) 0 = length hdr).
  { apply (findHeaderEnd_lines [50; 53; 53] ltac:(cbn; lia) ltac:(discriminate)
             [50; 53; 53] cells ltac:(repeat constructor; lia)
             ltac:(cbn; lia) ltac:(exists []; reflexivity) ls []); [constructor|].
    unfold ls. constructor; [split; [repeat constructor; lia|reflexivity]|].
    apply Forall_app. split.
    - eapply Forall_impl; [exact Hcs|]. intros x Hx. apply comment_line_text, Hx.
    - repeat constructor; [|exact Hslip].
      eapply Forall_impl; [exact HD10|]. tauto. }
  rewrite Hend.
  rewrite bool_decide_eq_false_2 by (unfold hdr; list_len). reflexivity.
Qed.

(** X2.  Comment lines between the format marker and the dimension line
    are skipped: for a well-formed raster with at most 2^32 - 1 cells, a
    file made of [P5], any number of comment lines (a [#] followed by
    characters from the space on that do not spell [255]), the dimension
    line (which does not show [255] either), the line [255] and the cells
    decodes to the raster, provided the file has at least 20 bytes and its
    header at most 1000. *)
Theorem comments_are_skipped cs w h cells :
  well_formed w h cells ->
  w * h <= 4294967295 ->
  includes (toString w ++ 32 :: toString h) (lit "255") = false ->
  Forall comment_line cs ->
  (20 <= length (encode_commented cs w h cells))%nat ->
  (length (encode_commented cs w h []) <= 1000)%nat ->
  parsePgmFile (encode_commented cs w h cells) = grid w h cells.
Proof.
  intros (Hw & Hh & Hcells & _) Hsize Hslip Hcs Hmin Hmax.
  assert (Hw32 : 0 < w < 2 ^ 32) by (change (2 ^ 32) with 4294967296; nia).
  assert (Hh32 : 0 < h < 2 ^ 32) by (change (2 ^ 32) with 4294967296; nia).
  pose proof (parseHeader_commented cs w h cells Hw32 Hh32 Hslip Hcs Hmax) as Hhdr.
  unfold parsePgmFile. rewrite bool_decide_eq_false_2 by lia.
  destruct (Nat.ltb_spec (length (encode_commented cs w h cells)) 20); [lia|].
  rewrite Hhdr, readPixels_data by (cbn [h_width h_height]; lia).
  cbn [h_width h_height actualHeaderEnd]. unfold grid. do 2 f_equal.
  assert (E : encode_commented cs w h cells = encode_commented cs w h [] ++ cells).
  { unfold encode_commented. rewrite <- !app_assoc. reflexivity. }
  rewrite E, drop_app_length.
  replace (Z.to_nat (w * h)) with (length cells) by lia.
  rewrite firstn_all, Nat.sub_diag, app_nil_r. reflexivity.
Qed.

Lemma comments_are_skipped_witness :
  parsePgmFile (encode_commented [creator_comment] 4 5 (replicate 20 7))
  = grid 4 5 (replicate 20 7).
Proof.
  apply comments_are_skipped.
  - repeat split; try lia. repeat constructor; lia.
  - lia.
  - vm_compute. reflexivity.
  - repeat constructor; vm_compute; congruence.
  - vm_compute. lia.
  - vm_compute. lia.
Defined.

End PgmMore.

(* ===================================================================== *)
(** ** The parser of the fetch fallback *)
(* ===================================================================== *)

Module FallbackFacts.
Import JS Pgm Fallback Samples MoreSamples PgmFacts.

Lemma copyOccupancy_copyPixels pixelData : forall bound arr,
  copyOccupancy pixelData arr bound
  = copyPixels (occupancy <$> pixelData) arr bound.
Proof.
  unfold copyOccupancy, copyPixels. intros bound.
  induction (seq 0 bound) as [|i l IH]; intros arr; [reflexivity|].
  cbn [fold_left]. rewrite list_lookup_fmap.
  destruct (pixelData !! i); cbn; apply IH.
Qed.

Lemma occupancy_tristate p : occupancy p = -1 \/ occupancy p = 0 \/ occupancy p = 100.
Proof. unfold occupancy. repeat case_match; auto. Qed.

Lemma occupancy_thresholds p :
  (occupancy p = 0 <-> 250 <= p) /\ (occupancy p = 100 <-> p <= 50)
  /\ (occupancy p = -1 <-> 50 < p < 250).
Proof.
  unfold occupancy.
  destruct (Z.leb_spec 250 p), (Z.leb_spec p 50); repeat split; intros; lia.
Qed.

(** [lastIndexOf] is the last position at which the text occurs, or [-1]. *)
Lemma lastIndexOf_spec p : forall s,
  (lastIndexOf s p = -1 /\ last_occurrence s p None)
  \/ (exists i, lastIndexOf s p = Z.of_nat i /\ last_occurrence s p (Some i)).
Proof.
  induction s as [|c t IH]; cbn [lastIndexOf last_occurrence length] in *.
  - destruct (startsWith [] p) eqn:E.
    + right. exists O. split; [reflexivity|]. split; [lia|]. split; [exact E|].
      intros j Hj. lia.
    + left. split; [reflexivity|]. intros j Hj.
      replace j with O by lia. exact E.
  - destruct IH as [[-> Hnone]|(i & -> & Hi & Hat & Hlater)].
    + change (0 <=? -1) with false. cbv iota.
      destruct (startsWith (c :: t) p) eqn:E.
      * right. exists O. split; [reflexivity|]. split; [lia|]. split; [exact E|].
        intros [|j] Hj; [lia|]. cbn [drop]. apply Hnone. lia.
      * left. split; [reflexivity|].
        intros [|j] Hj; [exact E|]. cbn [drop]. apply Hnone. lia.
    + destruct (Z.leb_spec 0 (Z.of_nat i)); [|lia].
      right. exists (S i). split; [lia|]. split; [lia|]. split; [exact Hat|].
      intros [|j] Hj; [lia|]. cbn [drop]. apply Hlater. lia.
Qed.

(** X3.  The grid of the fetch fallback.  Let the header lines of the
    fallback be [P5], a line whose first two tokens [parseInt] reads as
    [w] and [h], and a line that [parseInt] reads as [maxval], all three
    numbers that a Number holds exactly, with [w * h] an array length.
    Then the fallback returns the [w] x [h] grid whose payload starts one
    byte after the last occurrence of the text of [maxval] in the header
    text: it has [w * h] cells, each 0, 100 or -1, and cell [i] is 0 for a
    payload byte of at least 250, 100 for one of at most 50, and -1 for
    any other byte and for a missing one.  When the text of [maxval] does
    not occur in the header text, the payload starts at the length of
    that text.  (The first reader, [parsePgmFile], keeps the bytes as they
    are.) *)
Theorem fallback_cells_are_tristate bytes dims maxvalLine rest w h maxval :
  fallbackLines bytes = lit "P5" :: dims :: maxvalLine :: rest ->
  (parseInt <$> split_ws dims) !! 0%nat = Some (Some w) ->
  (parseInt <$> split_ws dims) !! 1%nat = Some (Some h) ->
  parseInt maxvalLine = Some maxval ->
  exact_number w -> exact_number h -> exact_number maxval ->
  0 <= w * h <= 4294967295 ->
  let n := Z.to_nat (w * h) in
  let headerEnd :=
    lastIndexOf (fallbackText bytes) (toString maxval)
    + Z.of_nat (length (toString maxval)) + 1 in
  let payload := drop (Z.to_nat headerEnd) bytes in
  let cells := (occupancy <$> take n payload)
               ++ replicate (n - length payload) (-1) in
  fallbackParse bytes = Some (grid w h cells)
  /\ Z.of_nat (length cells) = w * h
  /\ Forall (fun c => c = -1 \/ c = 0 \/ c = 100) cells
  /\ (forall i p, (i < n)%nat -> payload !! i = Some p ->
       cells !! i = Some (if 250 <=? p then 0
                          else if p <=? 50 then 100 else -1))
  /\ exists at_,
       last_occurrence (fallbackText bytes) (toString maxval) at_
       /\ headerEnd = match at_ with
                      | Some i => Z.of_nat (i + length (toString maxval) + 1)
                      | None => Z.of_nat (length (toString maxval))
                      end.
Proof.
  intros Hlines Hw Hh Hmax _ _ _ Hsize n headerEnd payload cells.
  unfold fallbackParse. cbn zeta. rewrite Hlines.
  change (negb (eqb_str (lit "P5") (lit "P5"))) with false. cbv iota.
  rewrite Hw, Hh, Hmax. unfold newArrayFill.
  destruct (Z.ltb_spec (w * h) 0) as [|_]; [lia|].
  destruct (Z.ltb_spec 4294967295 (w * h)) as [|_]; [lia|].
  cbn [orb]. fold headerEnd. fold payload. fold n.
  assert (Edata : copyOccupancy payload (replicate n (-1))
                    (Nat.min (length payload) n)
                  = (occupancy <$> take n payload)
                    ++ replicate (n - length payload) (-1)).
  { rewrite copyOccupancy_copyPixels.
    rewrite copyPixels_closed.
    2:{ rewrite length_fmap. lia. }
    2:{ rewrite length_replicate. lia. }
    rewrite drop_replicate, <- fmap_take. f_equal.
    - f_equal. destruct (Nat.le_ge_cases (length payload) n).
      + rewrite Nat.min_l, !take_ge by lia. reflexivity.
      + rewrite Nat.min_r by lia. reflexivity.
    - f_equal. lia. }
  rewrite Edata. fold cells. split; [reflexivity|]. split; [|split; [|split]].
  - unfold cells.
    rewrite length_app, length_fmap, length_take, length_replicate. lia.
  - apply Forall_app. split.
    + apply Forall_fmap, Forall_forall. intros p _. apply occupancy_tristate.
    + apply Forall_replicate. auto.
  - intros i p Hi Hp. unfold cells.
    pose proof (lookup_lt_Some _ _ _ Hp) as Hlt.
    rewrite lookup_app_l by (rewrite length_fmap, length_take; lia).
    rewrite list_lookup_fmap, lookup_take_lt by lia. rewrite Hp. reflexivity.
  - unfold headerEnd.
    destruct (lastIndexOf_spec (toString maxval) (fallbackText bytes))
      as [[-> Hnone]|(i & -> & Hsome)].
    + exists None. split; [exact Hnone|]. lia.
    + exists (Some i). split; [exact Hsome|]. lia.
Qed.

Lemma fallback_cells_are_tristate_witness :
  fallbackParse fallback_sample = Some (grid 2 3 [100; 100; -1; -1; 0; -1]).
Proof.
  refine (proj1 (fallback_cells_are_tristate fallback_sample
                   (lit "2 3") (lit "255") [[0]] 2 3 255 _ _ _ _ _ _ _ _)).
  - vm_compute. reflexivity.
  - vm_compute. reflexivity.
  - vm_compute. reflexivity.
  - vm_compute. reflexivity.
  - vm_compute. discriminate.
  - vm_compute. discriminate.
  - vm_compute. discriminate.
  - lia.
Defined.

End FallbackFacts.

(* ===================================================================== *)
(** ** More on the metadata decoder *)
(* ===================================================================== *)

Module YamlMore.
Import JS Yaml Loader Samples JSFacts.

Lemma trimStart_nil s : trimStart s = [] <-> Forall (fun c => is_ws c = true) s.
Proof.
  induction s as [|c s IH]; cbn [trimStart]; [split; auto|].
  destruct (is_ws c) eqn:E.
  - rewrite IH. split; [intros H; constructor; assumption|apply Forall_inv_tail].
  - split; [discriminate|]. intros H. apply Forall_inv in H. congruence.
Qed.

Lemma trimStart_head_kept s c t : trimStart s = c :: t -> is_ws c = false.
Proof.
  induction s as [|d s IH]; cbn [trimStart]; [discriminate|].
  destruct (is_ws d) eqn:E; [exact IH|]. intros [= <- <-]. exact E.
Qed.

Lemma trim_nil s : trim s = [] <-> Forall (fun c => is_ws c = true) s.
Proof.
  unfold trim, trimEnd. split.
  - intros H. apply trimStart_nil.
    destruct (trimStart s) as [|c t] eqn:E; [reflexivity|]. exfalso.
    apply (f_equal (@rev Z)) in H. rewrite rev_involutive in H. cbn [rev] in H.
    apply trimStart_nil in H.
    apply trimStart_head_kept in E.
    assert (Hc : In c (rev (c :: t))) by (apply in_rev; rewrite rev_involutive; left; reflexivity).
    rewrite Forall_forall in H. apply list_elem_of_In, H in Hc. congruence.
  - intros H. apply trimStart_nil in H. rewrite H. reflexivity.
Qed.

Section Decoder.
Variable parseFloat : list Z -> float.

Lemma parseYamlMetadata_None content :
  parseYamlMetadata parseFloat content = None <-> trim content = [].
Proof.
  unfold parseYamlMetadata, eqb_str.
  case_bool_decide; split; try tauto; try discriminate; congruence.
Qed.

(** X4.  [parseYamlMetadata] rejects exactly the texts made of white space
    only (the empty text among them); any other text gives a result,
    whatever its lines say. *)
Theorem blank_metadata_rejected content :
  parseYamlMetadata parseFloat content = None
  <-> Forall (fun c => is_ws c = true) content.
Proof.
  unfold parseYamlMetadata, eqb_str. rewrite <- trim_nil.
  case_bool_decide; split; try tauto; try discriminate; congruence.
Qed.

Lemma applyLine_resolution md line :
  md_resolution (applyLine parseFloat md line) =
  match key_value line with
  | Some (key, value) =>
      if eqb_str key (lit "resolution")
         && negb (PrimFloat.is_nan (parseFloat value))
      then Some (parseFloat value) else md_resolution md
  | None => md_resolution md
  end.
Proof.
  unfold applyLine. destruct (key_value line) as [[key value]|]; [|reflexivity].
  destruct (eqb_str key (lit "resolution")); cbn [andb].
  - destruct (PrimFloat.is_nan (parseFloat value)); reflexivity.
  - destruct (eqb_str key (lit "origin")); [|reflexivity].
    destruct (_ && _); reflexivity.
Qed.

Lemma applyLine_origin_kept md line :
  is_Some (md_origin md) -> is_Some (md_origin (applyLine parseFloat md line)).
Proof.
  unfold applyLine. destruct (key_value line) as [[key value]|]; [|auto].
  repeat (case_match; cbn [md_origin]); eauto.
Qed.

Lemma applyLine_resolution_other md line :
  ~ sets_resolution parseFloat line ->
  md_resolution (applyLine parseFloat md line) = md_resolution md.
Proof.
  intros Hno. rewrite applyLine_resolution.
  destruct (key_value line) as [[key value]|] eqn:E; [|reflexivity].
  unfold eqb_str. case_bool_decide as Hk; [|reflexivity]. subst key.
  destruct (PrimFloat.is_nan (parseFloat value)) eqn:En; [reflexivity|].
  exfalso. apply Hno. exists value. auto.
Qed.

(** X5.  In the loop of [parseYamlMetadata] over the lines, a field that
    is set stays set, lines that do not set the resolution (a resolution
    line whose value parses to [NaN] among them) leave it as it is, and the
    resolution after the loop is the value of the last line that sets
    it. *)
Theorem last_resolution_line_wins lines md :
  (is_Some (md_resolution md) ->
   is_Some (md_resolution (fold_left (applyLine parseFloat) lines md)))
  /\ (is_Some (md_origin md) ->
      is_Some (md_origin (fold_left (applyLine parseFloat) lines md)))
  /\ (Forall (fun l => ~ sets_resolution parseFloat l) lines ->
      md_resolution (fold_left (applyLine parseFloat) lines md) = md_resolution md)
  /\ (forall before line after value,
        lines = before ++ line :: after ->
        key_value line = Some (lit "resolution", value) ->
        PrimFloat.is_nan (parseFloat value) = false ->
        Forall (fun l => ~ sets_resolution parseFloat l) after ->
        md_resolution (fold_left (applyLine parseFloat) lines md)
        = Some (parseFloat value)).
Proof.
  assert (Hkeep : forall ls m, Forall (fun l => ~ sets_resolution parseFloat l) ls ->
            md_resolution (fold_left (applyLine parseFloat) ls m) = md_resolution m).
  { induction ls as [|l ls IH]; intros m Hls; [reflexivity|]. cbn [fold_left].
    rewrite IH by exact (Forall_inv_tail Hls).
    apply applyLine_resolution_other, (Forall_inv Hls). }
  split; [|split; [|split]].
  - revert md. induction lines as [|l ls IH]; intros md H; [exact H|].
    cbn [fold_left]. apply IH. rewrite applyLine_resolution.
    destruct (key_value l) as [[k v]|]; [|exact H].
    destruct (_ && _); eauto.
  - revert md. induction lines as [|l ls IH]; intros md H; [exact H|].
    cbn [fold_left]. apply IH, applyLine_origin_kept, H.
  - apply Hkeep.
  - intros before line after value -> Hkv Hnan Hafter.
    rewrite fold_left_app. cbn [fold_left]. rewrite Hkeep by exact Hafter.
    rewrite applyLine_resolution, Hkv.
    change (eqb_str (lit "resolution") (lit "resolution")) with true.
    rewrite Hnan. reflexivity.
Qed.

End Decoder.

Lemma last_resolution_line_wins_witness :
  md_resolution
    (fold_left (applyLine sample_parseFloat)
               [lit "resolution: 3"; lit "resolution: 5"; lit "resolution: x"]
               {| md_resolution := None; md_origin := None |})
  = Some 5%float.
Proof.
  refine (proj2 (proj2 (proj2 (last_resolution_line_wins sample_parseFloat
    [lit "resolution: 3"; lit "resolution: 5"; lit "resolution: x"]
    {| md_resolution := None; md_origin := None |})))
    [lit "resolution: 3"] (lit "resolution: 5") [lit "resolution: x"] (lit "5")
    eq_refl _ _ _).
  - vm_compute. reflexivity.
  - vm_compute. reflexivity.
  - constructor; [|constructor]. intros (v & Hkv & Hnan).
    vm_compute in Hkv. injection Hkv as <-. vm_compute in Hnan. discriminate.
Defined.

End YamlMore.

(* ===================================================================== *)
(** ** A map with its metadata *)
(* ===================================================================== *)

Module LoaderFacts.
Import JS Pgm Yaml Loader Samples PgmMore YamlMore.

Section Load.
Variable parseFloat : list Z -> float.

Lemma loadMapFromFiles_resolution pgmFile yamlFile :
  truthy_number (resolution (loadMapFromFiles parseFloat pgmFile yamlFile)) = true.
Proof.
  assert (Hdef : truthy_number (resolution (parsePgmFile pgmFile)) = true)
    by (rewrite (proj1 (parsePgmFile_default_metadata pgmFile)); reflexivity).
  unfold loadMapFromFiles. cbn zeta.
  destruct yamlFile as [content|]; [|auto].
  destruct (parseYamlMetadata parseFloat content) as [md|]; [|auto].
  destruct (md_resolution md) as [r|], (md_origin md) as [o|];
    try destruct (truthy_number r) eqn:Er; cbn; auto.
Qed.

(** X6.  Whatever the metadata file says, [MapParser.loadMapFromFiles]
    returns the width, the height and the cells of [parsePgmFile], and a
    resolution that is neither zero nor [NaN]: a metadata resolution of 0
    is ignored. *)
Theorem metadata_never_changes_grid pgmFile yamlFile :
  let m := loadMapFromFiles parseFloat pgmFile yamlFile in
  width m = width (parsePgmFile pgmFile)
  /\ height m = height (parsePgmFile pgmFile)
  /\ data m = data (parsePgmFile pgmFile)
  /\ truthy_number (resolution m) = true.
Proof.
  cbn zeta. split; [|split; [|split; [|apply loadMapFromFiles_resolution]]];
    unfold loadMapFromFiles; cbn zeta;
    (destruct yamlFile as [content|]; [|reflexivity]);
    (destruct (parseYamlMetadata parseFloat content) as [md|]; [|reflexivity]);
    destruct (md_resolution md) as [r|], (md_origin md) as [o|];
    try destruct (truthy_number r); reflexivity.
Qed.

(** X7.  The two loaders agree on every metadata text that is not blank:
    [loadMap] of [MapSelector] builds the map that
    [MapParser.loadMapFromFiles] returns, and the resolution and origin of
    its [metadata] field are those of the map.  On a blank text they part:
    [loadMap] reports an error and delivers no map, while
    [loadMapFromFiles] returns the map of [parsePgmFile]. *)
Theorem loaders_agree mapName pgmFile yamlText :
  (Forall (fun c => is_ws c = true) yamlText ->
     loadMap parseFloat mapName pgmFile yamlText = None
     /\ loadMapFromFiles parseFloat pgmFile (Some yamlText)
        = parsePgmFile pgmFile)
  /\ (~ Forall (fun c => is_ws c = true) yamlText ->
     exists mm,
       loadMap parseFloat mapName pgmFile yamlText
       = Some (loadMapFromFiles parseFloat pgmFile (Some yamlText), mm)
       /\ mm_resolution mm
          = resolution (loadMapFromFiles parseFloat pgmFile (Some yamlText))
       /\ mm_origin mm
          = origin (loadMapFromFiles parseFloat pgmFile (Some yamlText))).
Proof.
  pose proof (loadMapFromFiles_resolution pgmFile (Some yamlText)) as Ht.
  revert Ht.
  unfold loadMap, loadMapFromFiles. cbn zeta.
  pose proof (parseYamlMetadata_None parseFloat yamlText) as Hblank.
  rewrite trim_nil in Hblank.
  destruct (parseYamlMetadata parseFloat yamlText) as [md|] eqn:E.
  - intros Ht. split; [intros H; apply Hblank in H; discriminate|]. intros _.
    eexists. split; [|split].
    + f_equal. f_equal.
      unfold number_or. destruct (md_resolution md) as [r|], (md_origin md) as [o|];
        try destruct (truthy_number r); cbn; destruct (parsePgmFile pgmFile); reflexivity.
    + cbn [mm_resolution]. unfold number_or at 1.
      destruct (md_resolution md) as [r|], (md_origin md) as [o|];
        try destruct (truthy_number r) eqn:Er; cbn in *; rewrite ?Er, ?Ht; reflexivity.
    + cbn [mm_origin].
      destruct (md_resolution md) as [r|], (md_origin md) as [o|];
        try destruct (truthy_number r); reflexivity.
  - intros _. split; [auto|]. intros H. exfalso. apply H, Hblank. reflexivity.
Qed.

End Load.

Lemma loaders_agree_witness :
  loadMap sample_parseFloat "lab" wrong_marker_file (JS.lit "  ") = None.
Proof.
  refine (proj1 (proj1 (loaders_agree sample_parseFloat "lab" wrong_marker_file
                          (JS.lit "  ")) _)).
  repeat constructor.
Defined.

End LoaderFacts.

(* ===================================================================== *)
(** ** From a pixel to the world and back *)
(* ===================================================================== *)

Module TransformMore.
Import Pgm Transform RoundTrip Samples.

Lemma column_back_default m px py oy theta :
  resolution m = res_default -> origin m = (0, oy, theta)%float ->
  column_back m px py
  = floor ((0 + Z2float px * res_default - 0) / res_default)%float.
Proof.
  destruct m as [w h res o cells]. cbn [resolution origin].
  intros -> ->. reflexivity.
Qed.

(** Every column below 4096, by evaluation. *)
Lemma columns_checked :
  forallb (fun px =>
             let i := floor ((0 + Z2float px * res_default - 0) / res_default)%float in
             is_number i px || is_number i (px - 1))
          (columns 4096) = true.
Proof. vm_compute. reflexivity. Qed.

(** X8.  The two transforms are not inverse to each other.  On a map with
    the default resolution 0.05 and an origin whose x is 0 (what
    [parsePgmFile] returns), sending a pixel of column [px] below 4096 to
    the world and back gives column [px] or column [px - 1]; for column 43
    it gives 42. *)
Theorem column_round_trip_within_one m px py oy theta :
  resolution m = res_default -> origin m = (0, oy, theta)%float ->
  0 <= px < 4096 ->
  is_number (column_back m px py) px || is_number (column_back m px py) (px - 1)
  = true
  /\ is_number (column_back m 43 py) 42 = true.
Proof.
  intros Hres Horg Hpx.
  rewrite !(column_back_default m _ py oy theta Hres Horg).
  split; [|vm_compute; reflexivity].
  pose proof columns_checked as H. rewrite forallb_forall in H.
  apply (H px). unfold columns. apply list_elem_of_In, list_elem_of_fmap.
  exists (Z.to_nat px). split; [lia|]. apply elem_of_seq. lia.
Qed.

Lemma column_round_trip_within_one_witness :
  is_number (column_back (parsePgmFile short_payload_file) 43 7) 42 = true.
Proof.
  refine (proj2 (column_round_trip_within_one (parsePgmFile short_payload_file)
                   43 7 0 0 _ _ _)).
  - vm_compute. reflexivity.
  - vm_compute. reflexivity.
  - lia.
Defined.

End TransformMore.

(* ===================================================================== *)
(** ** More on the ROS bridge client *)
(* ===================================================================== *)

Module RosMore.
Import Ros RosTrace Samples RosFacts.
#[local] Open Scope nat_scope.
#[local] Arguments Nat.ltb : simpl never.

(** One call or event, case by case. *)
Ltac step_cases a :=
  destruct a as [[| |? ? ?|? ? ?|? ?|?|?]|[?|? ?|?|?|]]; cbn [step do_call fire];
  unfold connect, disconnect, subscribe, publish, advertise, onConnection,
    onDisconnection, onopen, onclose, onerror, onmessage, handleReconnect;
  repeat (case_match; cbn [url_ok ws sockets reconnectAttempts maxReconnectAttempts
                            subscribers connectionCallbacks disconnectionCallbacks
                            timers trace set_ws set_sockets set_reconnectAttempts
                            set_subscribers set_connectionCallbacks
                            set_disconnectionCallbacks set_timers log]).

Lemma step_attempts st a :
  reconnectAttempts st <= maxReconnectAttempts st ->
  reconnectAttempts (step st a) <= maxReconnectAttempts (step st a)
  /\ maxReconnectAttempts (step st a) = maxReconnectAttempts st.
Proof.
  intros H. step_cases a;
  cbn [url_ok ws sockets reconnectAttempts maxReconnectAttempts
                            subscribers connectionCallbacks disconnectionCallbacks
                            timers trace set_ws set_sockets set_reconnectAttempts
                            set_subscribers set_connectionCallbacks
                            set_disconnectionCallbacks set_timers log];
  try (split; [lia|reflexivity]).
  all: try match goal with H : (_ <? _) = true |- _ => apply Nat.ltb_lt in H; cbn in H end.
  all: try (split; [lia|reflexivity]).
Qed.

(** Projections of updated clients. *)
Ltac proj_simpl :=
  cbn [url_ok ws sockets reconnectAttempts maxReconnectAttempts
       subscribers connectionCallbacks disconnectionCallbacks
       timers trace set_ws set_sockets set_reconnectAttempts
       set_subscribers set_connectionCallbacks
       set_disconnectionCallbacks set_timers log with_trace] in *.

(** X9.  Along every run of calls and events, from a client whose attempt
    counter is within its bound, the counter stays within the bound and
    the bound itself never changes. *)
Theorem attempts_never_exceed_bound acts : forall st,
  reconnectAttempts st <= maxReconnectAttempts st ->
  reconnectAttempts (run acts st) <= maxReconnectAttempts st
  /\ maxReconnectAttempts (run acts st) = maxReconnectAttempts st.
Proof.
  induction acts as [|a acts IH]; intros st H; [split; [exact H|reflexivity]|].
  cbn [run fold_left]. destruct (step_attempts st a H) as [H1 H2].
  destruct (IH (step st a) H1) as [H3 H4]. fold (run acts (step st a)) in *.
  rewrite H2 in *. auto.
Qed.

Lemma attempts_never_exceed_bound_witness :
  reconnectAttempts
    (run [Call Connect; Event (SockClose 0); Event TimerFire; Event (SockClose 1)]
         (new_service true)) <= 5.
Proof.
  exact (proj1 (attempts_never_exceed_bound
    [Call Connect; Event (SockClose 0); Event TimerFire; Event (SockClose 1)]
    (new_service true) ltac:(cbn; lia))).
Defined.

(** *** Sockets *)

Lemma step_sockets_grow st a :
  length (sockets st) <= length (sockets (step st a)).
Proof.
  step_cases a; proj_simpl;
    rewrite ?length_app, ?length_insert, ?length_alter; cbn [length]; lia.
Qed.

Lemma step_closed_stays st a id :
  sockets st !! id = Some CLOSED -> sockets (step st a) !! id = Some CLOSED.
Proof.
  intros Hid.
  assert (Hins : forall i s, sockets st !! i <> Some CLOSED ->
             <[i := s]> (sockets st) !! id = Some CLOSED).
  { intros i s Hi. rewrite list_lookup_insert_ne; [exact Hid|].
    intros ->. congruence. }
  assert (Halt : forall i, alter close_socket i (sockets st) !! id = Some CLOSED).
  { intros i. destruct (decide (i = id)) as [->|Hne].
    - rewrite list_lookup_alter_eq, Hid. reflexivity.
    - rewrite list_lookup_alter_ne by exact Hne. exact Hid. }
  step_cases a; proj_simpl; try assumption; try apply Halt;
    try (apply lookup_app_l_Some; assumption);
    try (apply Hins; congruence).
  apply bool_decide_eq_true_1 in H. apply Hins. congruence.
Qed.

Lemma step_ws_valid st a :
  (forall id, ws st = Some id -> id < length (sockets st)) ->
  forall id, ws (step st a) = Some id -> id < length (sockets (step st a)).
Proof.
  intros Hws id.
  step_cases a; proj_simpl;
    rewrite ?length_app, ?length_insert, ?length_alter; cbn [length];
    intros Hid; try discriminate; try (injection Hid as <-; lia);
    try (apply Hws in Hid; lia);
    first [ exfalso; congruence
          | pose proof (Hws id ltac:(congruence)); lia ].
Qed.

(** X10.  Along every run, the sockets the client has created are never
    forgotten, a closed socket stays closed, and the socket reference, when
    set, names a socket the client has created (given that it does so at
    the start). *)
Theorem sockets_only_grow acts : forall st,
  length (sockets st) <= length (sockets (run acts st))
  /\ (forall id, sockets st !! id = Some CLOSED ->
                 sockets (run acts st) !! id = Some CLOSED)
  /\ ((forall id, ws st = Some id -> id < length (sockets st)) ->
      forall id, ws (run acts st) = Some id ->
                 id < length (sockets (run acts st))).
Proof.
  induction acts as [|a acts IH]; intros st; [auto|].
  cbn [run fold_left]. fold (run acts (step st a)).
  destruct (IH (step st a)) as (H1 & H2 & H3).
  pose proof (step_sockets_grow st a). split; [lia|]. split.
  - intros id Hid. apply H2, step_closed_stays, Hid.
  - intros Hws. apply H3, step_ws_valid, Hws.
Qed.

Lemma sockets_only_grow_witness :
  1 < length (sockets
        (run [Call Connect; Event (SockOpen 0); Call Disconnect; Call Connect]
             (new_service true))).
Proof.
  apply (proj2 (proj2 (sockets_only_grow
    [Call Connect; Event (SockOpen 0); Call Disconnect; Call Connect]
    (new_service true)))).
  - intros id. cbn. discriminate.
  - reflexivity.
Defined.

(** *** The trace is write-only *)

Lemma with_trace_id st : with_trace (trace st) st = st.
Proof. destruct st; reflexivity. Qed.

Lemma step_trace_blind st a :
  exists d, forall tr,
    step (with_trace tr st) a = with_trace (tr ++ d) (step (with_trace [] st) a).
Proof.
  destruct a as [[| |? ? ?|? ? ?|? ?|?|?]|[?|? ?|?|?|]]; cbn [step do_call fire];
  unfold connect, disconnect, subscribe, publish, advertise, onConnection,
    onDisconnection, onopen, onclose, onerror, onmessage, handleReconnect,
    registered;
  proj_simpl;
  repeat (case_match; proj_simpl);
  try (exists []; intros tr; unfold with_trace; proj_simpl;
       rewrite ?app_nil_r; reflexivity);
  try (eexists; intros tr; unfold with_trace; proj_simpl; reflexivity).
Qed.

Lemma run_trace_blind acts : forall st,
  exists d, forall tr,
    run acts (with_trace tr st) = with_trace (tr ++ d) (run acts (with_trace [] st)).
Proof.
  induction acts as [|a acts IH]; intros st.
  - exists []. intros tr. cbn. unfold with_trace; proj_simpl.
    rewrite app_nil_r. reflexivity.
  - destruct (step_trace_blind st a) as [d1 H1].
    destruct (IH (step (with_trace [] st) a)) as [d2 H2].
    exists (d1 ++ d2). intros tr. cbn [run fold_left].
    fold (run acts (step (with_trace tr st) a)).
    fold (run acts (step (with_trace [] st) a)).
    set (B0 := step (with_trace [] st) a) in *.
    transitivity (with_trace (tr ++ d1 ++ d2) (run acts (with_trace [] B0))).
    + rewrite H1, H2, app_assoc. reflexivity.
    + pose proof (H2 (trace B0)) as E. rewrite with_trace_id in E.
      rewrite E. reflexivity.
Qed.

Lemma run_from_log acts os st :
  exists d,
    run acts (log os st) = with_trace (trace st ++ os ++ d) (run acts st)
    /\ trace (run acts st) = trace st ++ d.
Proof.
  destruct (run_trace_blind acts st) as [d Hd]. exists d.
  pose proof (Hd (trace st)) as E0. rewrite with_trace_id in E0.
  assert (El : log os st = with_trace (trace st ++ os) st) by reflexivity.
  split.
  - rewrite El, Hd, E0, <- app_assoc. reflexivity.
  - rewrite E0. reflexivity.
Qed.

(** X11.  A [subscribe], [publish] or [advertise] on a client that is not
    connected is lost for good: whatever calls and events follow, the
    client ends in the same state, sends the same frames and calls the
    same handlers as if the call had not been made; only the error line of
    the console tells the two runs apart.  Nothing is queued for the next
    connection. *)
Theorem calls_while_disconnected_are_lost st c acts :
  isConnected st = false -> needs_connection c = true ->
  with_trace [] (run acts (do_call c st)) = with_trace [] (run acts st)
  /\ sent (trace (run acts (do_call c st))) = sent (trace (run acts st))
  /\ calls (trace (run acts (do_call c st))) = calls (trace (run acts st)).
Proof.
  intros Hconn Hc.
  assert (Ecall : do_call c st = log [ConsoleError] st).
  { unfold isConnected in Hconn.
    destruct c; try discriminate; cbn [do_call];
      unfold subscribe, publish, advertise;
      destruct (ws st); try reflexivity; rewrite Hconn; reflexivity. }
  rewrite Ecall.
  destruct (run_from_log acts [ConsoleError] st) as (d & -> & Htr).
  split; [reflexivity|]. rewrite Htr. cbn [trace with_trace].
  unfold sent, calls. rewrite !omap_app. cbn. auto.
Qed.

Lemma calls_while_disconnected_are_lost_witness :
  sent (trace (run [Call Connect; Event (SockOpen 0)]
                   (do_call (Publish "/cmd_vel" "geometry_msgs/Twist" None)
                            (new_service true))))
  = sent (trace (run [Call Connect; Event (SockOpen 0)] (new_service true))).
Proof.
  exact (proj1 (proj2 (calls_while_disconnected_are_lost (new_service true)
    (Publish "/cmd_vel" "geometry_msgs/Twist" None)
    [Call Connect; Event (SockOpen 0)] eq_refl eq_refl))).
Defined.

(** *** Listeners *)

Lemma step_listeners st a :
  connectionCallbacks (step st a)
  = connectionCallbacks st ++ option_list (connection_listener a)
  /\ disconnectionCallbacks (step st a)
     = disconnectionCallbacks st ++ option_list (disconnection_listener a).
Proof.
  step_cases a; proj_simpl; cbn [connection_listener disconnection_listener
                                   option_list];
    rewrite ?app_nil_r; split; reflexivity.
Qed.

(** X12.  The two listener lists only ever grow at the end: after any run
    of calls and events, the connection listeners are the listeners there
    were before followed by those the [onConnection] calls of the run
    registered, in the order of the calls and with repetitions, and
    likewise for the disconnection listeners.  No call and no event -
    [disconnect], a close, a reconnect - removes, reorders or deduplicates
    a listener. *)
Theorem listeners_are_never_removed acts : forall st,
  connectionCallbacks (run acts st)
  = connectionCallbacks st ++ omap connection_listener acts
  /\ disconnectionCallbacks (run acts st)
     = disconnectionCallbacks st ++ omap disconnection_listener acts.
Proof.
  induction acts as [|a acts IH]; intros st.
  - cbn. rewrite !app_nil_r. split; reflexivity.
  - cbn [run fold_left]. fold (run acts (step st a)).
    destruct (IH (step st a)) as [-> ->], (step_listeners st a) as [-> ->].
    rewrite <- !app_assoc. cbn [omap list_omap].
    destruct (connection_listener a), (disconnection_listener a);
      split; reflexivity.
Qed.

(** X13.  [connect] on a connected client does not close the open socket:
    it replaces the socket reference by a new connecting socket, so the
    client is no longer connected and refuses [subscribe], [publish] and
    [advertise], while the old socket stays open and what arrives over it
    is still dispatched. *)
Theorem connect_while_connected st id :
  url_ok st = true -> ws st = Some id -> sockets st !! id = Some OPEN ->
  let st' := connect st in
  isConnected st' = false
  /\ sockets st' !! id = Some OPEN
  /\ ws st' = Some (length (sockets st))
  /\ (forall parsed, fire (SockMessage id parsed) st' = onmessage st' parsed)
  /\ (forall c, needs_connection c = true ->
                do_call c st' = log [ConsoleError] st').
Proof.
  intros Hurl Hws Hopen. unfold connect. rewrite Hurl. cbn zeta.
  assert (Hold : (sockets st ++ [CONNECTING]) !! id = Some OPEN)
    by (apply lookup_app_l_Some, Hopen).
  assert (Hnew : isConnected
            (set_sockets (sockets st ++ [CONNECTING])
               (set_ws (Some (length (sockets st))) st)) = false).
  { unfold isConnected. proj_simpl. rewrite lookup_new_socket. reflexivity. }
  split; [exact Hnew|]. split; [exact Hold|]. split; [reflexivity|]. split.
  - intros parsed. cbn [fire]. proj_simpl.
    rewrite bool_decide_eq_true_2 by exact Hold. reflexivity.
  - intros c Hc. unfold isConnected in Hnew. proj_simpl.
    destruct c; try discriminate; cbn [do_call];
      unfold subscribe, publish, advertise; proj_simpl;
      rewrite Hnew; reflexivity.
Qed.

Lemma connect_while_connected_witness :
  isConnected (connect connected_service) = false.
Proof.
  exact (proj1 (connect_while_connected connected_service 0
                  eq_refl eq_refl eq_refl)).
Defined.

Lemma callbacks_not_frames (l : list nat) :
  sent (ConnectionCb <$> l) = [] /\ calls (ConnectionCb <$> l) = []
  /\ sent (DisconnectionCb <$> l) = [] /\ calls (DisconnectionCb <$> l) = [].
Proof. induction l as [|x l (H1 & H2 & H3 & H4)]; cbn; auto. Qed.

(** X14.  What one call or event adds to the trace: a frame only goes out
    over the current socket, only while that socket is open, and only for
    a [subscribe], [publish] or [advertise] call; a topic handler is only
    called for a message that arrives over an open socket, with the [msg]
    field of that message. *)
Theorem frames_and_handlers_need_open_socket st a :
  exists d,
    trace (step st a) = trace st ++ d
    /\ (forall id f, In (id, f) (sent d) ->
          ws st = Some id /\ sockets st !! id = Some OPEN
          /\ exists c, a = Call c /\ needs_connection c = true)
    /\ (forall h msg, In (h, msg) (calls d) ->
          exists id data, a = Event (SockMessage id (Some data))
                          /\ sockets st !! id = Some OPEN
                          /\ msg = field "msg" data).
Proof.
  step_cases a; proj_simpl;
    try (exists []; rewrite app_nil_r; split; [reflexivity|];
         split; intros ? ? []);
    try (eexists; split; [reflexivity|]; split;
         [intros i f Hin|intros hh m Hin]; cbn in Hin;
         repeat match goal with
                | H : _ \/ _ |- _ => destruct H
                | H : False |- _ => destruct H
                | H : (_, _) = (_, _) |- _ => injection H as <- <-
                | H : bool_decide _ = true |- _ => apply bool_decide_eq_true_1 in H
                end;
         eauto 10; fail).
  all: eexists; split; [reflexivity|];
    match goal with
    | |- context [ConnectionCb <$> ?l] =>
        destruct (callbacks_not_frames l) as (-> & -> & _ & _)
    | |- context [DisconnectionCb <$> ?l] =>
        destruct (callbacks_not_frames l) as (_ & _ & -> & ->)
    end; split; intros ? ? [].
Qed.

End RosMore.

(* ===================================================================== *)
(** ** The goal point store *)
(* ===================================================================== *)

Module PointsFacts.
Import Points MoreSamples.
#[local] Open Scope nat_scope.

Section Find.
Context {A : Type}.
Implicit Types (p q : A -> bool) (l : list A).

Lemma findIndex_find p l :
  List.find p l = (findIndex p l ≫= fun i => l !! i).
Proof.
  induction l as [|x l IH]; cbn; [reflexivity|].
  destruct (p x); [reflexivity|]. rewrite IH.
  destruct (findIndex p l); reflexivity.
Qed.

Lemma findIndex_Some p l i :
  findIndex p l = Some i ->
  exists x, l !! i = Some x /\ p x = true /\ List.find p l = Some x
            /\ forall j y, (j < i)%nat -> l !! j = Some y -> p y = false.
Proof.
  revert i. induction l as [|x l IH]; intros i; cbn; [discriminate|].
  destruct (p x) eqn:Ep.
  - intros [= <-]. exists x. repeat split; auto. intros j y Hj. lia.
  - destruct (findIndex p l) as [k|] eqn:Ek; [|discriminate].
    intros [= <-]. destruct (IH k eq_refl) as (y & Hy & Hpy & Hf & Hbefore).
    exists y. repeat split; auto.
    intros [|j] z Hj Hz; cbn in Hz; [congruence|]. eapply Hbefore; eauto. lia.
Qed.

Lemma findIndex_None p l :
  findIndex p l = None <-> List.find p l = None.
Proof.
  induction l as [|x l IH]; cbn; [tauto|].
  destruct (p x); [split; discriminate|]. rewrite <- IH.
  destruct (findIndex p l); cbn; split; congruence.
Qed.

Lemma find_alter_first p f l i :
  findIndex p l = Some i -> (forall x, p x = true -> p (f x) = true) ->
  List.find p (alter f i l) = f <$> List.find p l.
Proof.
  revert i. induction l as [|x l IH]; intros i; cbn; [discriminate|].
  destruct (p x) eqn:Ep.
  - intros [= <-] Hf. cbn. rewrite (Hf _ Ep). reflexivity.
  - destruct (findIndex p l) as [k|] eqn:Ek; [|discriminate].
    intros [= <-] Hf. cbn. rewrite Ep. apply IH; auto.
Qed.

Lemma find_alter_other q f l i :
  (forall x, l !! i = Some x -> q x = false /\ q (f x) = false) ->
  List.find q (alter f i l) = List.find q l.
Proof.
  revert i. induction l as [|x l IH]; intros i Hq; [reflexivity|].
  destruct i as [|i]; cbn.
  - destruct (Hq x eq_refl) as [-> ->]. reflexivity.
  - destruct (q x); [reflexivity|]. apply IH. intros y Hy. apply Hq. exact Hy.
Qed.

End Find.

Lemma named_other name other m :
  named name m = true -> other <> name -> named other m = false.
Proof.
  unfold named. intros H Hne. apply String.eqb_eq in H.
  apply String.eqb_neq. congruence.
Qed.

Lemma find_snoc {A} (p : A -> bool) l x :
  List.find p (l ++ [x]) =
  match List.find p l with
  | Some y => Some y
  | None => if p x then Some x else None
  end.
Proof.
  induction l as [|y l IH]; cbn; [reflexivity|].
  destruct (p y); [reflexivity|exact IH].
Qed.

Lemma sum_alter {A} (g : A -> nat) f (l : list A) i m :
  l !! i = Some m ->
  sum_list (g <$> alter f i l) + g m = sum_list (g <$> l) + g (f m).
Proof.
  revert i. induction l as [|x l IH]; intros [|i]; cbn; try discriminate.
  - intros [= ->]. lia.
  - intros H. specialize (IH i H). lia.
Qed.

Lemma totalPoints_maps data :
  totalPoints data = sum_list ((fun m => length (points m)) <$> maps data).
Proof.
  unfold totalPoints, getAllMapsInfo. rewrite <- list_fmap_compose. reflexivity.
Qed.

(** X15.  After [addPointToMap], the points of the map are the former
    points followed by the new one (the map is created when the file does
    not have it), the points of every other map are untouched, and the
    point counts of [getAllMapsInfo] add up to one more. *)
Theorem added_point_is_read_back now name point path data :
  let data' := addPointToMap now name point path data in
  getPointsForMap data' name = getPointsForMap data name ++ [point]
  /\ (forall other, other <> name ->
        getPointsForMap data' other = getPointsForMap data other)
  /\ totalPoints data' = S (totalPoints data).
Proof.
  cbn zeta. rewrite !totalPoints_maps.
  unfold addPointToMap, getPointsForMap.
  destruct (findIndex (named name) (maps data)) as [i|] eqn:Ei.
  - destruct (findIndex_Some _ _ _ Ei) as (m & Hm & Hnm & Hfind & _).
    cbn [maps set_maps]. split; [|split].
    + rewrite (find_alter_first _ _ _ _ Ei) by auto. rewrite Hfind. reflexivity.
    + intros other Hne. rewrite find_alter_other; [reflexivity|].
      intros x Hx. rewrite Hm in Hx. injection Hx as <-.
      split; apply (named_other name); auto.
    + pose proof (sum_alter (fun m => length (points m))
        (fun m => {| mapName := mapName m; mapPath := mapPath m;
                     points := points m ++ [point];
                     createdAt := createdAt m; updatedAt := now |})
        _ _ _ Hm) as Hsum.
      cbn [points] in Hsum. rewrite length_app in Hsum. cbn [length] in Hsum. lia.
  - apply findIndex_None in Ei. cbn [maps set_maps]. split; [|split].
    + rewrite find_snoc, Ei. unfold named at 1. cbn [mapName].
      rewrite String.eqb_refl. reflexivity.
    + intros other Hne. rewrite find_snoc.
      destruct (List.find (named other) (maps data)); [reflexivity|].
      unfold named. cbn [mapName].
      destruct (String.eqb_spec name other); [congruence|reflexivity].
    + rewrite fmap_app, sum_list_with_app. cbn. lia.
Qed.

Lemma added_point_is_read_back_witness :
  getPointsForMap
    (addPointToMap "t1" "lab" (mkGoalPoint "c" "lift" 7 8 0) None lab_file) "hall"
  = getPointsForMap lab_file "hall".
Proof.
  apply (proj1 (proj2 (added_point_is_read_back "t1" "lab"
     (mkGoalPoint "c" "lift" 7 8 0) None lab_file))).
  discriminate.
Defined.

(** X16.  [removePointFromMap] returns [false] without saving exactly when
    the file has no map of that name.  Otherwise the points of the map are
    the former points without those of the given id (every one of them,
    should the id occur more than once), no point of that id is left, the
    other maps are untouched, and removing the same id again succeeds and
    changes no point. *)
Theorem removed_point_is_gone now name pointId data :
  (removePointFromMap now name pointId data = None
   <-> List.find (named name) (maps data) = None)
  /\ forall data', removePointFromMap now name pointId data = Some data' ->
     getPointsForMap data' name
     = List.filter (fun p => negb (has_id pointId p)) (getPointsForMap data name)
     /\ Forall (fun p => gp_id p <> pointId) (getPointsForMap data' name)
     /\ (forall other, other <> name ->
           getPointsForMap data' other = getPointsForMap data other)
     /\ (forall now', exists data'',
           removePointFromMap now' name pointId data' = Some data''
           /\ getPointsForMap data'' name = getPointsForMap data' name).
Proof.
  assert (Hrem : forall nw d d',
            removePointFromMap nw name pointId d = Some d' ->
            getPointsForMap d' name
            = List.filter (fun p => negb (has_id pointId p)) (getPointsForMap d name)
            /\ is_Some (List.find (named name) (maps d'))).
  { intros nw d d'. unfold removePointFromMap, getPointsForMap.
    destruct (findIndex (named name) (maps d)) as [i|] eqn:Ei; [|discriminate].
    destruct (findIndex_Some _ _ _ Ei) as (m & Hm & Hnm & Hfind & _).
    intros [= <-]. cbn [maps set_maps].
    rewrite (find_alter_first _ _ _ _ Ei) by auto. rewrite Hfind. cbn. eauto. }
  split.
  - unfold removePointFromMap. rewrite <- findIndex_None.
    destruct (findIndex (named name) (maps data)); split; congruence.
  - intros data' Hrm. destruct (Hrem _ _ _ Hrm) as [Hpts Hex].
    split; [exact Hpts|]. split; [|split].
    + rewrite Hpts. apply Forall_forall. intros p Hp.
      apply list_elem_of_In, filter_In in Hp. destruct Hp as [_ Hp].
      unfold has_id in Hp. apply negb_true_iff, String.eqb_neq in Hp. exact Hp.
    + intros other Hne. revert Hrm. unfold removePointFromMap, getPointsForMap.
      destruct (findIndex (named name) (maps data)) as [i|] eqn:Ei; [|discriminate].
      destruct (findIndex_Some _ _ _ Ei) as (m & Hm & Hnm & _).
      intros [= <-]. cbn [maps set_maps].
      rewrite find_alter_other; [reflexivity|].
      intros x Hx. rewrite Hm in Hx. injection Hx as <-.
      split; apply (named_other name); auto.
    + intros now'. destruct Hex as [m Hm].
      destruct (removePointFromMap now' name pointId data') as [data''|] eqn:E.
      * exists data''. split; [reflexivity|].
        destruct (Hrem _ _ _ E) as [-> _]. rewrite Hpts. clear.
        induction (getPointsForMap data name) as [|p l IH]; [reflexivity|].
        cbn [List.filter]. destruct (negb (has_id pointId p)) eqn:Ep; [|exact IH].
        cbn [List.filter]. rewrite Ep, IH. reflexivity.
      * exfalso. unfold removePointFromMap in E.
        destruct (findIndex (named name) (maps data')) eqn:Ei; [discriminate|].
        apply findIndex_None in Ei. congruence.
Qed.

Lemma removed_point_is_gone_witness :
  exists data',
    removePointFromMap "t1" "lab" "a" lab_file = Some data'
    /\ getPointsForMap data' "lab" = [mkGoalPoint "b" "door" 3 4 0]
    /\ getPointsForMap data' "hall" = [mkGoalPoint "a" "desk" 5 6 0].
Proof.
  eexists. split; [reflexivity|].
  destruct (proj2 (removed_point_is_gone "t1" "lab" "a" lab_file) _ eq_refl)
    as (H1 & _ & H3 & _).
  split; [rewrite H1; reflexivity|]. rewrite H3 by discriminate. reflexivity.
Defined.

(** X17.  [updatePointInMap] returns [false] without saving exactly when
    the map has no point of the given id (or the file has no such map).
    Otherwise it replaces the first point of that id by the point merged
    with the update and leaves every other point, the number of points and
    the other maps as they were. *)
Theorem update_changes_first_match now name pointId updates data :
  (updatePointInMap now name pointId updates data = None
   <-> List.find (has_id pointId) (getPointsForMap data name) = None)
  /\ forall data', updatePointInMap now name pointId updates data = Some data' ->
     exists i p,
       findIndex (has_id pointId) (getPointsForMap data name) = Some i
       /\ getPointsForMap data name !! i = Some p
       /\ getPointsForMap data' name
          = <[i := merge p updates]> (getPointsForMap data name)
       /\ length (getPointsForMap data' name) = length (getPointsForMap data name)
       /\ (forall other, other <> name ->
             getPointsForMap data' other = getPointsForMap data other).
Proof.
  unfold updatePointInMap, getPointsForMap.
  destruct (findIndex (named name) (maps data)) as [mi|] eqn:Ei.
  2:{ pose proof (proj1 (findIndex_None _ _) Ei) as Hf. rewrite Hf.
      split; [split; reflexivity|discriminate]. }
  destruct (findIndex_Some _ _ _ Ei) as (m & Hm & Hnm & Hfind & _).
  rewrite Hm, Hfind.
  destruct (findIndex (has_id pointId) (points m)) as [pi|] eqn:Ep.
  2:{ split; [|discriminate]. rewrite <- findIndex_None. tauto. }
  destruct (findIndex_Some _ _ _ Ep) as (p & Hp & Hidp & Hfp & _).
  split; [rewrite Hfp; split; discriminate|].
  intros data' [= <-]. exists pi, p. cbn [maps set_maps].
  rewrite (find_alter_first _ _ _ _ Ei) by auto. rewrite Hfind. cbn [fmap option_fmap option_map points].
  split; [reflexivity|]. split; [exact Hp|]. split.
  { apply list_eq. intros j. destruct (decide (j = pi)) as [->|Hne].
    - rewrite list_lookup_alter_eq, Hp.
      rewrite list_lookup_insert_eq by (eapply lookup_lt_Some; eauto). reflexivity.
    - rewrite list_lookup_alter_ne, list_lookup_insert_ne by congruence. reflexivity. }
  split; [apply length_alter|].
  intros other Hne. rewrite find_alter_other; [reflexivity|].
  intros x Hx. rewrite Hm in Hx. injection Hx as <-.
  split; apply (named_other name); auto.
Qed.

Lemma update_changes_first_match_witness :
  exists data',
    updatePointInMap "t1" "lab" "b"
      (mkGoalUpdate None (Some "gate") None None None) lab_file = Some data'
    /\ getPointsForMap data' "lab"
       = [mkGoalPoint "a" "dock" 1 2 0; mkGoalPoint "b" "gate" 3 4 0].
Proof.
  eexists. split; [reflexivity|].
  destruct (proj2 (update_changes_first_match "t1" "lab" "b"
              (mkGoalUpdate None (Some "gate") None None None) lab_file)
              _ eq_refl) as (i & p & Hi & Hp & -> & _).
  vm_compute in Hi. injection Hi as <-. vm_compute in Hp. injection Hp as <-.
  reflexivity.
Defined.

End PointsFacts.
